(** * nanobanana: scripts/generate.py

    A shallow embedding of the command-line image generator and the
    properties of its request / extract / save flow.

    The script talks to the outside world (environment, package import,
    pip, the Gemini client, the clock, the file system).  Every such
    call is answered by a [World] record; a run is a function from the
    world to the chronological list of the effects it performed and the
    way it ended: a returned value, a raised [Exception], or
    [SystemExit].

    Python strings are [string]s whose characters are the code points
    below 256; [str.lower] and [str.isspace] are exact on that range. *)

From Stdlib Require Import String Ascii List Bool Arith PeanoNat ZArith Lia.
Import ListNotations.
Open Scope string_scope.
Open Scope list_scope.
Open Scope nat_scope.

(** String concatenation, kept apart from list append. *)
Infix "+++" := String.append (right associativity, at level 60).

Set Implicit Arguments.

(** ** Python strings *)

Module Str.

(** [str.isspace] on one character: TAB..CR, FS..US, space, NEL, NBSP. *)
Definition isspace (c : ascii) : bool :=
  let n := nat_of_ascii c in
  ((9 <=? n) && (n <=? 13)) || ((28 <=? n) && (n <=? 32))
  || (n =? 133) || (n =? 160).

Fixpoint lstrip (s : string) : string :=
  match s with
  | String c s' => if isspace c then lstrip s' else s
  | EmptyString => EmptyString
  end.

(** Trailing white space removed: a character is kept when it is not
    white space or when something is kept after it. *)
Fixpoint rstrip (s : string) : string :=
  match s with
  | String c s' =>
      match rstrip s' with
      | EmptyString => if isspace c then EmptyString else String c EmptyString
      | r => String c r
      end
  | EmptyString => EmptyString
  end.

(** [s.strip()] *)
Definition strip (s : string) : string := rstrip (lstrip s).

(** [not s]: the empty string is the only falsy string. *)
Definition falsy (s : string) : bool :=
  match s with EmptyString => true | _ => false end.

(** [str.lower] on one character: A..Z and the Latin-1 capitals
    (0xC0..0xDE without the multiplication sign 0xD7) move by 32. *)
Definition lower_char (c : ascii) : ascii :=
  let n := nat_of_ascii c in
  if ((65 <=? n) && (n <=? 90))
     || ((192 <=? n) && (n <=? 222) && negb (n =? 215))
  then ascii_of_nat (n + 32) else c.

Fixpoint lower (s : string) : string :=
  match s with
  | String c s' => String (lower_char c) (lower s')
  | EmptyString => EmptyString
  end.

(** [needle in hay] *)
Fixpoint contains (needle hay : string) : bool :=
  prefix needle hay
  || match hay with
     | String _ hay' => contains needle hay'
     | EmptyString => false
     end.

(** [sep.join(l)] *)
Fixpoint join (sep : string) (l : list string) : string :=
  match l with
  | [] => EmptyString
  | [x] => x
  | x :: rest => x +++ sep +++ join sep rest
  end.

(** [s[:n]] *)
Definition take (n : nat) (s : string) : string := substring 0 n s.

End Str.

(** ** pathlib, POSIX flavour *)

Module Pathlib.

(** A parsed path: the root (empty, ["/"] or ["//"]) and the components,
    with empty and ["."] components dropped as [PurePosixPath] does. *)
Record Path : Type := mkPath { root : string; parts : list string }.

(** Splitting at ['/']: the first segment and the ones after it. *)
Fixpoint split_sep (s : string) : string * list string :=
  match s with
  | EmptyString => (EmptyString, [])
  | String c s' =>
      let (h, t) := split_sep s' in
      if Ascii.eqb c "/" then (EmptyString, h :: t) else (String c h, t)
  end.

Definition segments (s : string) : list string :=
  let (h, t) := split_sep s in h :: t.

Definition keep_segment (x : string) : bool :=
  negb (String.eqb x EmptyString || String.eqb x ".").

(** Exactly two leading slashes are kept as the root ["//"]; one, or
    three and more, give ["/"]. *)
Definition splitroot (s : string) : string :=
  match s with
  | String "/" (String "/" (String "/" _)) => "/"
  | String "/" (String "/" _) => "//"
  | String "/" _ => "/"
  | _ => EmptyString
  end.

(** [Path(s)] *)
Definition of_string (s : string) : Path :=
  mkPath (splitroot s) (filter keep_segment (segments s)).

Definition is_absolute (p : Path) : bool := negb (Str.falsy (root p)).

(** [p / s] *)
Definition joinpath (p : Path) (s : string) : Path :=
  let q := of_string s in
  if is_absolute q then q else mkPath (root p) (parts p ++ parts q).

(** [str(p)] *)
Definition to_string (p : Path) : string :=
  match root p, parts p with
  | EmptyString, [] => "."
  | r, ps => r +++ Str.join "/" ps
  end.

(** [p.name] *)
Definition name (p : Path) : string := last (parts p) EmptyString.

(** [p.absolute()] in the working directory [cwd]. *)
Definition absolute (cwd : Path) (p : Path) : Path :=
  if is_absolute p then p else mkPath (root cwd) (parts cwd ++ parts p).

End Pathlib.
Export Pathlib(Path, mkPath).

(** ** datetime *)

Module Datetime.

Record datetime : Type := mkDatetime {
  year : Z; month : Z; day : Z;
  hour : Z; minute : Z; second : Z
}.

(** The ranges of a [datetime] whose year has four digits (which every
    C library prints alike under [%Y]). *)
Definition wf (d : datetime) : Prop :=
  (1000 <= year d <= 9999 /\ 1 <= month d <= 12 /\ 1 <= day d <= 31 /\
   0 <= hour d < 24 /\ 0 <= minute d < 60 /\ 0 <= second d < 60)%Z.

Definition digit (n : Z) : ascii := ascii_of_N (Z.to_N (48 + n)).

(** [%02d] on 0..99 *)
Definition fmt2 (n : Z) : string :=
  String (digit (n / 10)) (String (digit (n mod 10)) EmptyString).

(** [%Y] on 0..9999 *)
Definition fmt4 (n : Z) : string :=
  fmt2 (n / 100) +++ fmt2 (n mod 100).

(** [d.strftime("%Y%m%d_%H%M%S")] *)
Definition strftime_Ymd_HMS (d : datetime) : string :=
  fmt4 (year d) +++ fmt2 (month d) +++ fmt2 (day d) +++ "_" +++
  fmt2 (hour d) +++ fmt2 (minute d) +++ fmt2 (second d).

End Datetime.
Export Datetime(datetime, mkDatetime).

(** ** Exceptions, objects and the outside world *)

(** The classes the script tells apart with [except] clauses; every
    other subclass of [Exception] is [OtherException]. *)
Inductive exn_class : Type :=
  | ImportError | CalledProcessError | TypeError | OtherException.

(** An [Exception] instance: its class and [str(e)].  Signals that are
    not [Exception]s ([KeyboardInterrupt] and the like) are left out;
    [SystemExit] is a way for a computation to end, see [result]. *)
Record exn : Type := mkExn { class_of : exn_class; exn_str : string }.

Definition is_ImportError (e : exn) : bool :=
  match class_of e with ImportError => true | _ => false end.
Definition is_CalledProcessError (e : exn) : bool :=
  match class_of e with CalledProcessError => true | _ => false end.
Definition is_TypeError (e : exn) : bool :=
  match class_of e with TypeError => true | _ => false end.

(** What a call into a library does: it returns or it raises. *)
Inductive outcome (A : Type) : Type :=
  | Returns (a : A)
  | Throws (e : exn).
Arguments Returns {A} a.
Arguments Throws {A} e.

(** The object handed to [save_image]: whether it has a [save]
    attribute, what [image.save(path, format)] does and what
    [image.save(path)] does. *)
Record Image : Type := mkImage {
  has_save : bool;
  save_with_format : Path -> string -> outcome unit;
  save_plain : string -> outcome unit
}.

Record Blob : Type := mkBlob { mime_type : string; data : string }.

(** A response part: [part.text], [part.inline_data] and what
    [part.as_image()] does. *)
Record Part : Type := mkPart {
  text : option string;
  inline_data : option Blob;
  as_image : outcome (option Image)
}.

(** [response.parts] is a list or [None]. *)
Record Response : Type := mkResponse { parts : option (list Part) }.

Record World : Type := mkWorld {
  (** [from google import genai] and [from google.genai import types] *)
  import_genai : outcome unit;
  (** [sys.executable] *)
  executable : string;
  (** [subprocess.run(argv, capture_output=True, text=True, check=True)] *)
  subprocess_run : list string -> outcome unit;
  (** [os.getenv] *)
  getenv : string -> option string;
  (** [genai.Client(api_key=...)] *)
  genai_Client : string -> outcome unit;
  (** [client.models.generate_content(model=..., contents=...)] *)
  generate_content : string -> list string -> outcome Response;
  (** [datetime.now()] *)
  now : datetime;
  (** the working directory, an absolute path *)
  cwd : Path;
  (** [open(path, 'wb')], [f.write(image)] and leaving the [with] block *)
  file_open : Path -> outcome unit;
  file_write : Path -> Image -> outcome unit;
  file_close : Path -> outcome unit
}.

(** The effects a run leaves behind, in the order they happen. *)
Inductive event : Type :=
  | Print (s : string)
  | SubprocessRun (argv : list string)
  | ClientNew (api_key : string)
  | GenerateContent (model : string) (contents : list string)
  | SaveFormat (path : Path) (format : string)
  | SavePlain (path : string)
  | FileOpen (path : Path) (mode : string)
  | FileWrite (path : Path)
  | FileClose (path : Path).

(** How a computation ends. [SystemExit] is not an [Exception]: no
    [except Exception] clause stops it. *)
Inductive result (A : Type) : Type :=
  | Ret (a : A)
  | Raised (e : exn)
  | SystemExit (code : Z).
Arguments Ret {A} a.
Arguments Raised {A} e.
Arguments SystemExit {A} code.

Definition M (A : Type) : Type := World -> list event * result A.

Definition ret {A} (a : A) : M A := fun _ => ([], Ret a).

Definition bind {A B} (m : M A) (k : A -> M B) : M B :=
  fun w =>
    match m w with
    | (t, Ret a) => let (t', r) := k a w in (t ++ t', r)
    | (t, Raised e) => (t, Raised e)
    | (t, SystemExit c) => (t, SystemExit c)
    end.

Notation "x <- m ;; k" := (bind m (fun x => k))
  (at level 61, m at next level, right associativity).
Notation "m ;; k" := (bind m (fun _ => k))
  (at level 61, right associativity).

Definition ask : M World := fun w => ([], Ret w).
Definition emit (e : event) : M unit := fun _ => ([e], Ret tt).
Definition raise {A} (e : exn) : M A := fun _ => ([], Raised e).
Definition sys_exit {A} (code : Z) : M A := fun _ => ([], SystemExit code).
Definition print (s : string) : M unit := emit (Print s).

(** A library call: the event, then what the world answers. *)
Definition call {A} (ev : event) (o : World -> outcome A) : M A :=
  fun w =>
    match o w with
    | Returns a => ([ev], Ret a)
    | Throws e => ([ev], Raised e)
    end.

(** A method call on an object at hand, not traced. *)
Definition invoke {A} (o : outcome A) : M A :=
  fun _ => match o with Returns a => ([], Ret a) | Throws e => ([], Raised e) end.

(** [try: body  except ...: handler].  [handler e] is [None] when no
    clause matches [e].  An exception raised inside the handler is not
    caught again. *)
Definition try_except {A} (body : M A) (handler : exn -> option (M A)) : M A :=
  fun w =>
    match body w with
    | (t, Raised e) =>
        match handler e with
        | Some h => let (t', r) := h w in (t ++ t', r)
        | None => (t, Raised e)
        end
    | done => done
    end.

(** [with open(path, mode) as f: body]: the file is closed on the way
    out, also when [body] raised. *)
Definition with_open {A} (path : Path) (mode : string) (body : M A) : M A :=
  call (FileOpen path mode) (fun w => file_open w path) ;;
  fun w =>
    let (t, r) := body w in
    match file_close w path with
    | Returns _ => (t ++ [FileClose path], r)
    | Throws e => (t ++ [FileClose path], Raised e)
    end.

Definition when (c : bool) (m : M unit) : M unit := if c then m else ret tt.

(** A [for] loop whose body may [return]. *)
Inductive flow (A : Type) : Type :=
  | Continue
  | Return (a : A).
Arguments Continue {A}.
Arguments Return {A} a.

Fixpoint for_each {P A} (l : list P) (body : P -> M (flow A)) (after : M A) : M A :=
  match l with
  | [] => after
  | x :: l' =>
      r <- body x ;;
      match r with
      | Continue => for_each l' body after
      | Return a => ret a
      end
  end.

(** Iterating over [None] raises. *)
Definition iterate {A} (o : option (list A)) : M (list A) :=
  match o with
  | Some l => ret l
  | None => raise (mkExn TypeError "'NoneType' object is not iterable")
  end.

(** The exit status of the process for a run of the whole script: normal
    termination gives 0, [sys.exit(c)] gives [c], an uncaught exception
    gives 1. *)
Definition exit_status {A} (r : result A) : Z :=
  match r with
  | Ret _ => 0
  | SystemExit c => c
  | Raised _ => 1
  end.

Definition trace {A} (x : list event * result A) : list event := fst x.
Definition outcome_of {A} (x : list event * result A) : result A := snd x.

(** ** The script *)

(** ["\n"] *)
Definition nl : string := String (ascii_of_nat 10) EmptyString.

(** The double quote character. *)
Definition dq : string := String (ascii_of_nat 34) EmptyString.

(** U+2713 CHECK MARK, as its UTF-8 bytes. *)
Definition check_mark : string :=
  String (ascii_of_nat 226) (String (ascii_of_nat 156) (String (ascii_of_nat 147) EmptyString)).

Definition pip_user (exe : string) : list string :=
  [exe; "-m"; "pip"; "install"; "--user"; "google-genai"].
Definition pip_break_system (exe : string) : list string :=
  [exe; "-m"; "pip"; "install"; "--break-system-packages"; "google-genai"].

Definition run_pip (argv : list string) : M unit :=
  call (SubprocessRun argv) (fun w => subprocess_run w argv).

Definition installed_rerun : M unit :=
  print "Successfully installed google-genai!" ;;
  print "Please run the command again to use the newly installed package." ;;
  sys_exit 0.

(** Lines 12-56: the import of the client library and the automatic
    installation when it is missing. *)
Definition import_block : M unit :=
  try_except
    (fun w => invoke (import_genai w) w)
    (fun e =>
       if is_ImportError e then Some (
         print "Required package 'google-genai' is not installed." ;;
         print "Attempting to install automatically..." ;;
         exe <- (w <- ask ;; ret (executable w)) ;;
         try_except
           (run_pip (pip_user exe) ;;
            installed_rerun)
           (fun e =>
              if is_CalledProcessError e then Some (
                try_except
                  (run_pip (pip_break_system exe) ;;
                   installed_rerun)
                  (fun e' =>
                     if is_CalledProcessError e' then Some (
                       print (nl +++ "ERROR: Failed to auto-install google-genai.") ;;
                       print (nl +++ "Please install manually with one of:") ;;
                       print "  pip install --user google-genai" ;;
                       print "  pip install --break-system-packages google-genai" ;;
                       print (nl +++ "Or use a virtual environment:") ;;
                       print "  python3 -m venv venv" ;;
                       print "  source venv/bin/activate" ;;
                       print "  pip install google-genai" ;;
                       sys_exit 1)
                     else None))
              else Some (
                print (nl +++ "ERROR: Unexpected error during installation: " +++ exn_str e) ;;
                print (nl +++ "Please install manually with: pip install --user google-genai") ;;
                sys_exit 1)))
       else None).

(** The four lines [validate_api_key] prints before [sys.exit(1)]. *)
Definition setup_instructions : list event :=
  [ Print "ERROR: GEMINI_API_KEY environment variable is not set.";
    Print (nl +++ "To fix this, set your API key:");
    Print "  export GEMINI_API_KEY='your-api-key-here'";
    Print (nl +++ "Get your API key at: https://aistudio.google.com/apikey") ].

Definition emit_all (l : list event) : M unit :=
  fold_right (fun e k => emit e ;; k) (ret tt) l.

Definition KEY : string := "GEMINI_API_KEY".

Definition validate_api_key : M string :=
  api_key <- (w <- ask ;; ret (getenv w KEY)) ;;
  match api_key with
  | Some (String c k) => ret (String c k)
  | _ =>
      (* [not api_key]: [None] or the empty string *)
      emit_all setup_instructions ;;
      sys_exit 1
  end.

(** The body of the loop over [response.parts]. *)
Definition visit_part (part : Part) : M (flow (option Image)) :=
  match text part with
  | Some t =>
      print ("Model response: " +++ t) ;;
      ret Continue
  | None =>
      match inline_data part with
      | Some _ =>
          print "Image generated successfully!" ;;
          image <- invoke (as_image part) ;;
          ret (Return image)
      | None => ret Continue
      end
  end.

Definition no_image_data : string := "ERROR: No image data found in API response.".

(** The three guidance blocks of the error handler. *)
Inductive guidance : Type := Credential | Throttling | Connectivity.

Definition guidance_block (g : guidance) : list event :=
  match g with
  | Credential =>
      [ Print (nl +++ "Possible causes:");
        Print "  - Invalid API key";
        Print "  - API key not properly set in GEMINI_API_KEY environment variable";
        Print "  - API key may have been revoked or expired" ]
  | Throttling =>
      [ Print (nl +++ "Possible causes:");
        Print "  - API quota exceeded";
        Print "  - Rate limit reached";
        Print "  - Try again in a few moments" ]
  | Connectivity =>
      [ Print (nl +++ "Possible causes:");
        Print "  - Network connectivity issues";
        Print "  - Firewall blocking API requests";
        Print "  - Check your internet connection" ]
  end.

(** The [except Exception as e] clause of [generate_image]. *)
Definition generation_failed (e : exn) : M (option Image) :=
  print ("ERROR: Failed to generate image: " +++ exn_str e) ;;
  let error_str := Str.lower (exn_str e) in
  (if Str.contains "api key" error_str || Str.contains "authentication" error_str then
     emit_all (guidance_block Credential)
   else if Str.contains "quota" error_str || Str.contains "rate limit" error_str then
     emit_all (guidance_block Throttling)
   else if Str.contains "network" error_str || Str.contains "connection" error_str then
     emit_all (guidance_block Connectivity)
   else ret tt) ;;
  ret None.

Definition model_id : string := "gemini-3-pro-image-preview".

(** The [try] block of [generate_image]. *)
Definition generate_image_try (prompt : string) : M (option Image) :=
  api_key <- validate_api_key ;;
  call (ClientNew api_key) (fun w => genai_Client w api_key) ;;
  print "Generating image with Nano Banana Pro..." ;;
  print ("Prompt: " +++ Str.take 100 prompt
          +++ (if 100 <? String.length prompt then "..." else EmptyString) +++ nl) ;;
  response <- call (GenerateContent model_id [prompt])
                   (fun w => generate_content w model_id [prompt]) ;;
  ps <- iterate (parts response) ;;
  for_each ps visit_part
    (print no_image_data ;;
     ret None).

Definition generate_image (prompt : string) : M (option Image) :=
  try_except
    (generate_image_try prompt)
    (fun e => Some (generation_failed e)).

(** [f"nanobanana_{timestamp}.png"] *)
Definition filename_at (d : datetime) : string :=
  "nanobanana_" +++ Datetime.strftime_Ymd_HMS d +++ ".png".

Definition save_failed (e : exn) : M (option Path) :=
  print ("ERROR: Failed to save image: " +++ exn_str e) ;;
  print (nl +++ "Possible causes:") ;;
  print "  - Insufficient permissions to write to the directory" ;;
  print "  - Disk space full" ;;
  print "  - Invalid output directory path" ;;
  ret None.

(** The [try] block of [save_image]. *)
Definition save_image_try (image : Image) (output_dir : string) : M (option Path) :=
  filename <- (w <- ask ;; ret (filename_at (now w))) ;;
  let filepath := Pathlib.joinpath (Pathlib.of_string output_dir) filename in
  (if has_save image then
     try_except
       (call (SaveFormat filepath "PNG") (fun _ => save_with_format image filepath "PNG"))
       (fun e =>
          if is_TypeError e then Some (
            let s := Pathlib.to_string filepath in
            call (SavePlain s) (fun _ => save_plain image s))
          else None)
   else
     with_open filepath "wb"
       (call (FileWrite filepath) (fun w => file_write w filepath image))) ;;
  here <- (w <- ask ;; ret (cwd w)) ;;
  print (nl +++ "Image saved to: " +++ Pathlib.to_string (Pathlib.absolute here filepath)) ;;
  ret (Some filepath).

Definition save_image (image : Image) (output_dir : string) : M (option Path) :=
  try_except
    (save_image_try image output_dir)
    (fun e => Some (save_failed e)).

Definition usage : list event :=
  [ Print "ERROR: No prompt provided.";
    Print (nl +++ "Usage: python generate.py " +++ dq +++ "Your image prompt here" +++ dq);
    Print (nl +++ "Example:");
    Print ("  python generate.py " +++ dq +++ "A fluffy cat sitting on a cloud" +++ dq) ].

(** [main], with [argv] standing for [sys.argv]; the default
    [output_dir] of [save_image] is written out. *)
Definition main (argv : list string) : M unit :=
  when (length argv <? 2)
    (emit_all usage ;;
     sys_exit 1) ;;
  let prompt := Str.join " " (skipn 1 argv) in
  when (Str.falsy (Str.strip prompt))
    (print "ERROR: Prompt cannot be empty." ;;
     sys_exit 1) ;;
  image <- generate_image prompt ;;
  match image with
  | None => sys_exit 1
  | Some image =>
      filepath <- save_image image "." ;;
      match filepath with
      | None => sys_exit 1
      | Some filepath =>
          print (nl +++ check_mark +++ " Image generation complete!") ;;
          print (check_mark +++ " Saved as: " +++ Pathlib.name filepath)
      end
  end.

(** The whole file run as a script: the import block, then [main]. *)
Definition script (argv : list string) : M unit :=
  import_block ;;
  main argv.

(** ** Vocabulary of the statements *)

(** Every character is white space (the empty string included). *)
Fixpoint whitespace_only (s : string) : bool :=
  match s with
  | String c s' => Str.isspace c && whitespace_only s'
  | EmptyString => true
  end.

Definition is_digit (c : ascii) : bool :=
  let n := nat_of_ascii c in (48 <=? n) && (n <=? 57).

(** [lit] read off the front of [s]. *)
Fixpoint expect (lit s : string) : option string :=
  match lit, s with
  | EmptyString, _ => Some s
  | String a lit', String b s' => if Ascii.eqb a b then expect lit' s' else None
  | String _ _, EmptyString => None
  end.

(** [n] digits read off the front of [s]. *)
Fixpoint digits (n : nat) (s : string) : option string :=
  match n, s with
  | O, _ => Some s
  | S n', String c s' => if is_digit c then digits n' s' else None
  | S _, EmptyString => None
  end.

(** A full match of [nanobanana_\d{8}_\d{6}\.png]. *)
Definition matches_pattern (s : string) : bool :=
  match expect "nanobanana_" s with
  | Some s1 =>
      match digits 8 s1 with
      | Some s2 =>
          match expect "_" s2 with
          | Some s3 =>
              match digits 6 s3 with
              | Some s4 => String.eqb s4 ".png"
              | None => false
              end
          | None => false
          end
      | None => false
      end
  | None => false
  end.

(** A part the loop returns from: no text, and inline data. *)
Definition image_only (p : Part) : bool :=
  match text p, inline_data p with
  | None, Some _ => true
  | _, _ => false
  end.

Definition carries_image (p : Part) : bool :=
  match inline_data p with Some _ => true | None => false end.

Definition carries_text (p : Part) : bool :=
  match text p with Some _ => true | None => false end.

(** The lines printed for the textual parts of [ps], in order. *)
Definition text_prints (ps : list Part) : list event :=
  flat_map (fun p => match text p with
                     | Some t => [Print ("Model response: " +++ t)]
                     | None => []
                     end) ps.

(** What [generate_image] leaves behind up to and including the request. *)
Definition request_head (api_key prompt : string) : list event :=
  [ ClientNew api_key;
    Print "Generating image with Nano Banana Pro...";
    Print ("Prompt: " +++ Str.take 100 prompt
            +++ (if 100 <? String.length prompt then "..." else EmptyString) +++ nl);
    GenerateContent model_id [prompt] ].

(** Client construction and the generation request. *)
Definition is_network (ev : event) : bool :=
  match ev with
  | ClientNew _ | GenerateContent _ _ => true
  | _ => false
  end.

(** An attempt to write the image. *)
Definition is_save (ev : event) : bool :=
  match ev with
  | SaveFormat _ _ | SavePlain _ | FileOpen _ _ | FileWrite _ | FileClose _ => true
  | _ => false
  end.

(** The two closing lines of [main]. *)
Definition confirmation (filepath : Path) : list event :=
  [ Print (nl +++ check_mark +++ " Image generation complete!");
    Print (check_mark +++ " Saved as: " +++ Pathlib.name filepath) ].

Definition error_line (e : exn) : event :=
  Print ("ERROR: Failed to generate image: " +++ exn_str e).

Definition credential_words (s : string) : bool :=
  Str.contains "api key" s || Str.contains "authentication" s.
Definition throttling_words (s : string) : bool :=
  Str.contains "quota" s || Str.contains "rate limit" s.
Definition connectivity_words (s : string) : bool :=
  Str.contains "network" s || Str.contains "connection" s.

(** ** Sample objects and worlds *)

Module Sample.

(** A PIL-like image: [save(path, "PNG")] works. *)
Definition pil : Image := mkImage true (fun _ _ => Returns tt) (fun _ => Returns tt).

(** A Gemini image: [save] takes the path only. *)
Definition gemini : Image :=
  mkImage true
    (fun _ _ =>
       Throws (mkExn TypeError "Image.save() takes 2 positional arguments but 3 were given"))
    (fun _ => Returns tt).

(** Raw bytes: no [save] attribute. *)
Definition raw : Image :=
  mkImage false
    (fun _ _ => Throws (mkExn OtherException "'bytes' object has no attribute 'save'"))
    (fun _ => Throws (mkExn OtherException "'bytes' object has no attribute 'save'")).

Definition png : Blob := mkBlob "image/png" "PNG".

Definition text_part (t : string) : Part := mkPart (Some t) None (Returns None).
Definition image_part (i : Image) : Part := mkPart None (Some png) (Returns (Some i)).
Definition captioned_part (t : string) (i : Image) : Part :=
  mkPart (Some t) (Some png) (Returns (Some i)).

Definition env_with_key (name : string) : option string :=
  if String.eqb name KEY then Some "secret" else None.
Definition env_empty (name : string) : option string := None.

(** A world in which everything works and the model answers [ps]. *)
Definition world (ps : list Part) : World :=
  mkWorld (Returns tt) "/usr/bin/python3" (fun _ => Returns tt)
    env_with_key
    (fun _ => Returns tt)
    (fun _ _ => Returns (mkResponse (Some ps)))
    (mkDatetime 2024 3 9 7 5 59)
    (Pathlib.of_string "/home/user")
    (fun _ => Returns tt) (fun _ _ => Returns tt) (fun _ => Returns tt).

(** The same without the credential. *)
Definition world_no_key : World :=
  mkWorld (Returns tt) "/usr/bin/python3" (fun _ => Returns tt)
    env_empty
    (fun _ => Returns tt)
    (fun _ _ => Returns (mkResponse (Some [image_part pil])))
    (mkDatetime 2024 3 9 7 5 59)
    (Pathlib.of_string "/home/user")
    (fun _ => Returns tt) (fun _ _ => Returns tt) (fun _ => Returns tt).


(** The request fails with a message that names three categories. *)
Definition world_request_fails (msg : string) : World :=
  mkWorld (Returns tt) "/usr/bin/python3" (fun _ => Returns tt)
    env_with_key
    (fun _ => Returns tt)
    (fun _ _ => Throws (mkExn OtherException msg))
    (mkDatetime 2024 3 9 7 5 59)
    (Pathlib.of_string "/home/user")
    (fun _ => Returns tt) (fun _ _ => Returns tt) (fun _ => Returns tt).

Definition argv_apple : list string := ["generate.py"; "A"; "red"; "apple"].

End Sample.

(** ** The loop, told by what it finds *)

(** The parts the loop visits before it returns: those ahead of the
    first [image_only] part. *)
Fixpoint before_image (ps : list Part) : list Part :=
  match ps with
  | [] => []
  | p :: ps' => if image_only p then [] else p :: before_image ps'
  end.

(** The part the loop returns from, if any. *)
Definition first_image (ps : list Part) : option Part := find image_only ps.

(** A raised exception or a returned value, as a [result]. *)
Definition result_of {A} (o : outcome A) : result A :=
  match o with
  | Returns a => Ret a
  | Throws e => Raised e
  end.

Definition no_network (t : list event) : Prop :=
  forall ev, In ev t -> is_network ev = false.

Definition no_save (t : list event) : Prop :=
  forall ev, In ev t -> is_save ev = false.

(** The path [save_image] writes to. *)
Definition target (output_dir : string) (w : World) : Path :=
  Pathlib.joinpath (Pathlib.of_string output_dir) (filename_at (now w)).

Definition saved_line (w : World) (filepath : Path) : event :=
  Print (nl +++ "Image saved to: "
            +++ Pathlib.to_string (Pathlib.absolute (cwd w) filepath)).

(** What the [except] clause of [save_image] prints. *)
Definition save_diagnostic (e : exn) : list event :=
  [ Print ("ERROR: Failed to save image: " +++ exn_str e);
    Print (nl +++ "Possible causes:");
    Print "  - Insufficient permissions to write to the directory";
    Print "  - Disk space full";
    Print "  - Invalid output directory path" ].

(** The arguments written one after the other, each one after the first
    preceded by a single space. *)
Definition space_separated (l : list string) : string :=
  match l with
  | [] => EmptyString
  | a :: rest => fold_left (fun acc x => acc +++ " " +++ x) rest a
  end.

(** The run of [generate_image prompt] in [w] gets as far as the loop
    over the parts [ps]: the credential [k] is set, the client is built
    and the request returns a response whose parts are the list [ps]. *)
Definition iterates (w : World) (prompt k : string) (ps : list Part) : Prop :=
  getenv w KEY = Some k /\ k <> EmptyString /\
  genai_Client w k = Returns tt /\
  exists response,
    generate_content w model_id [prompt] = Returns response /\
    parts response = Some ps.

(** The guidance blocks the error handler prints for a lowered message. *)
Definition guidance_for (s : string) : list guidance :=
  if credential_words s then [Credential]
  else if throttling_words s then [Throttling]
  else if connectivity_words s then [Connectivity]
  else [].

(** No character of [s] is the path separator. *)
Fixpoint no_slash (s : string) : bool :=
  match s with
  | String c s' => negb (Ascii.eqb c "/") && no_slash s'
  | EmptyString => true
  end.

(** What the import block prints when the package is missing, and after
    a successful installation. *)
Definition not_installed_lines : list event :=
  [ Print "Required package 'google-genai' is not installed.";
    Print "Attempting to install automatically..." ].

Definition installed_lines : list event :=
  [ Print "Successfully installed google-genai!";
    Print "Please run the command again to use the newly installed package." ].


(** ** Kinds of events, and counting them *)

Definition is_print (ev : event) : bool :=
  match ev with Print _ => true | _ => false end.

Definition is_client (ev : event) : bool :=
  match ev with ClientNew _ => true | _ => false end.

Definition is_request (ev : event) : bool :=
  match ev with GenerateContent _ _ => true | _ => false end.

Definition is_subprocess (ev : event) : bool :=
  match ev with SubprocessRun _ => true | _ => false end.

Definition count (f : event -> bool) (t : list event) : nat :=
  length (filter f t).

(** The credential is unset or set to the empty string. *)
Definition no_credential (w : World) : Prop :=
  getenv w KEY = None \/ getenv w KEY = Some EmptyString.

(** ** More sample worlds *)

Module Scenario.

(** A world where the import, pip, the clock and the file system behave,
    with the environment, the client and the model to be chosen. *)
Definition world (env : string -> option string)
    (client : string -> outcome unit)
    (model : string -> list string -> outcome Response) : World :=
  mkWorld (Returns tt) "/usr/bin/python3" (fun _ => Returns tt)
    env client model
    (mkDatetime 2024 3 9 7 5 59)
    (Pathlib.of_string "/home/user")
    (fun _ => Returns tt) (fun _ _ => Returns tt) (fun _ => Returns tt).

Definition env_key (k : string) (name : string) : option string :=
  if String.eqb name KEY then Some k else None.

Definition answers (ps : option (list Part)) : string -> list string -> outcome Response :=
  fun _ _ => Returns (mkResponse ps).

(** The credential is set, but empty. *)
Definition empty_key : World :=
  world (env_key EmptyString) (fun _ => Returns tt) (answers (Some [])).

(** The credential is a single space. *)
Definition blank_key : World :=
  world (env_key " ") (fun _ => Returns tt) (answers (Some [])).

(** The client refuses the credential. *)
Definition client_fails : World :=
  world (env_key "secret")
    (fun _ => Throws (mkExn OtherException "Invalid API Key format"))
    (answers (Some [])).

(** The response has no parts at all. *)
Definition parts_none : World :=
  world (env_key "secret") (fun _ => Returns tt) (answers None).

(** A part with inline data that [as_image] does not turn into an image. *)
Definition not_an_image : Part :=
  mkPart None (Some (mkBlob "application/pdf" "PDF")) (Returns None).

Definition world_not_an_image : World :=
  world (env_key "secret") (fun _ => Returns tt) (answers (Some [not_an_image])).

(** The package is missing; [pip install --user] ends in
    [CalledProcessError], the second attempt works. *)
Definition pip_user_fails : World :=
  mkWorld (Throws (mkExn ImportError "No module named 'google'"))
    "/usr/bin/python3"
    (fun argv => if existsb (String.eqb "--user") argv
                 then Throws (mkExn CalledProcessError "returned non-zero exit status 1")
                 else Returns tt)
    (env_key "secret") (fun _ => Returns tt) (answers (Some []))
    (mkDatetime 2024 3 9 7 5 59)
    (Pathlib.of_string "/home/user")
    (fun _ => Returns tt) (fun _ _ => Returns tt) (fun _ => Returns tt).

(** The package is missing and there is no [pip] to run: the first
    attempt ends in an exception that is not [CalledProcessError]. *)
Definition pip_cannot_run : World :=
  mkWorld (Throws (mkExn ImportError "No module named 'google'"))
    "/usr/bin/python3"
    (fun _ => Throws (mkExn OtherException "[Errno 13] Permission denied"))
    (env_key "secret") (fun _ => Returns tt) (answers (Some []))
    (mkDatetime 2024 3 9 7 5 59)
    (Pathlib.of_string "/home/user")
    (fun _ => Returns tt) (fun _ _ => Returns tt) (fun _ => Returns tt).

(** A prompt of 101 characters. *)
Definition long_prompt : string :=
  "0123456789012345678901234567890123456789012345678901234567890123456789012345678901234567890123456789X".

End Scenario.


(** ** Running the monad *)

Lemma emit_all_run (l : list event) (w : World) : emit_all l w = (l, Ret tt).
Proof.
  induction l as [|e l IH]; [reflexivity|].
  unfold emit_all in *; cbn [fold_right].
  unfold bind at 1. cbn [emit]. rewrite IH. reflexivity.
Qed.

Lemma bind_run {A B} (m : M A) (k : A -> M B) (w : World) :
  bind m k w =
  match m w with
  | (t, Ret a) => (t ++ fst (k a w), snd (k a w))
  | (t, Raised e) => (t, Raised e)
  | (t, SystemExit c) => (t, SystemExit c)
  end.
Proof.
  unfold bind. destruct (m w) as [t [a|e|c]]; try reflexivity.
  destruct (k a w); reflexivity.
Qed.

Lemma try_except_run {A} (body : M A) (handler : exn -> option (M A)) (w : World) :
  try_except body handler w =
  match body w with
  | (t, Raised e) =>
      match handler e with
      | Some h => (t ++ fst (h w), snd (h w))
      | None => (t, Raised e)
      end
  | done => done
  end.
Proof.
  unfold try_except. destruct (body w) as [t [a|e|c]]; try reflexivity.
  destruct (handler e) as [h|]; [destruct (h w)|]; reflexivity.
Qed.

Lemma bind_ret {A B} (m : M A) (k : A -> M B) (w : World) t a :
  m w = (t, Ret a) -> bind m k w = (t ++ fst (k a w), snd (k a w)).
Proof. intros H. rewrite bind_run, H. reflexivity. Qed.

Lemma bind_raised {A B} (m : M A) (k : A -> M B) (w : World) t e :
  m w = (t, Raised e) -> bind m k w = (t, Raised e).
Proof. intros H. rewrite bind_run, H. reflexivity. Qed.

Lemma bind_exit {A B} (m : M A) (k : A -> M B) (w : World) t c :
  m w = (t, SystemExit c) -> bind m k w = (t, SystemExit c).
Proof. intros H. rewrite bind_run, H. reflexivity. Qed.

Lemma call_returns {A} (ev : event) (o : World -> outcome A) (w : World) a :
  o w = Returns a -> call ev o w = ([ev], Ret a).
Proof. intros H. unfold call. rewrite H. reflexivity. Qed.

Lemma call_throws {A} (ev : event) (o : World -> outcome A) (w : World) e :
  o w = Throws e -> call ev o w = ([ev], Raised e).
Proof. intros H. unfold call. rewrite H. reflexivity. Qed.

Lemma print_run (s : string) (w : World) : print s w = ([Print s], Ret tt).
Proof. reflexivity. Qed.

Lemma script_after_import (argv : list string) (w : World) :
  import_genai w = Returns tt -> script argv w = main argv w.
Proof.
  intros Himp. unfold script. rewrite bind_run.
  unfold import_block. rewrite try_except_run. unfold invoke. rewrite Himp.
  cbn. destruct (main argv w); reflexivity.
Qed.

(** ** Strings *)

Lemma lstrip_whitespace (s : string) :
  whitespace_only s = true -> Str.lstrip s = EmptyString.
Proof.
  induction s as [|c s IH]; cbn; [reflexivity|].
  destruct (Str.isspace c); cbn; [exact IH | discriminate].
Qed.

Lemma rstrip_empty (s : string) :
  Str.rstrip s = EmptyString -> whitespace_only s = true.
Proof.
  induction s as [|c s IH]; cbn; [reflexivity|].
  destruct (Str.rstrip s) eqn:E; [|discriminate].
  destruct (Str.isspace c); [intros _; apply IH; reflexivity | discriminate].
Qed.

Lemma lstrip_suffix_whitespace (s : string) :
  whitespace_only (Str.lstrip s) = true -> whitespace_only s = true.
Proof.
  induction s as [|c s IH]; cbn; [reflexivity|].
  destruct (Str.isspace c) eqn:E; cbn; [exact IH|].
  rewrite E. discriminate.
Qed.

(** [s.strip()] is empty exactly when [s] is empty or all white space. *)
Lemma strip_empty_iff (s : string) :
  Str.strip s = EmptyString <-> whitespace_only s = true.
Proof.
  unfold Str.strip. split.
  - intros H. apply lstrip_suffix_whitespace, rstrip_empty, H.
  - intros H. rewrite (lstrip_whitespace _ H). reflexivity.
Qed.

Lemma join_cons (sep a b : string) (l : list string) :
  Str.join sep (a :: b :: l) = a +++ sep +++ Str.join sep (b :: l).
Proof. reflexivity. Qed.

Lemma append_assoc (a b c : string) : (a +++ b) +++ c = a +++ b +++ c.
Proof. induction a as [|x a IH]; cbn; [reflexivity | now rewrite IH]. Qed.


(** ** The response loop *)

Lemma loop_run (ps : list Part) (w : World) :
  for_each ps visit_part (print no_image_data ;; ret None) w =
  match first_image ps with
  | Some p =>
      (text_prints (before_image ps) ++ [Print "Image generated successfully!"],
       result_of (as_image p))
  | None => (text_prints ps ++ [Print no_image_data], Ret None)
  end.
Proof.
  induction ps as [|p ps IH]; [reflexivity|].
  cbn [for_each]. rewrite bind_run. unfold first_image in *.
  destruct p as [[t|] [b|] [i|e]]; cbn; try reflexivity;
    rewrite IH; destruct (find image_only ps); reflexivity.
Qed.

(** ** [generate_image], case by case *)

Lemma generation_failed_run (e : exn) (w : World) :
  exists t,
    generation_failed e w = (error_line e :: t, Ret None) /\
    (forall ev, In ev t -> exists s, ev = Print s).
Proof.
  unfold generation_failed. rewrite bind_run. cbn [print emit fst snd].
  rewrite bind_run.
  destruct (Str.contains "api key" _ || Str.contains "authentication" _);
    [|destruct (Str.contains "quota" _ || Str.contains "rate limit" _);
      [|destruct (Str.contains "network" _ || Str.contains "connection" _)]];
    rewrite ?emit_all_run; cbn;
    (eexists; split; [reflexivity|]);
    cbn; intros ev H; repeat (destruct H as [H|H]; [eexists; symmetry; exact H|]);
    contradiction.
Qed.

Lemma validate_missing (w : World) :
  getenv w KEY = None \/ getenv w KEY = Some EmptyString ->
  validate_api_key w = (setup_instructions, SystemExit 1).
Proof.
  intros H. unfold validate_api_key. rewrite bind_run.
  cbn [bind ask ret fst snd app].
  destruct H as [-> | ->]; rewrite bind_run, emit_all_run; reflexivity.
Qed.

Lemma validate_present (w : World) (k : string) :
  getenv w KEY = Some k -> k <> EmptyString ->
  validate_api_key w = ([], Ret k).
Proof.
  intros H Hk. unfold validate_api_key. rewrite bind_run.
  cbn [bind ask ret fst snd app].
  rewrite H. destruct k; [contradiction|reflexivity].
Qed.

Lemma generate_image_no_key (prompt : string) (w : World) :
  getenv w KEY = None \/ getenv w KEY = Some EmptyString ->
  generate_image prompt w = (setup_instructions, SystemExit 1).
Proof.
  intros H. unfold generate_image. rewrite try_except_run.
  unfold generate_image_try. rewrite bind_run, (validate_missing w H).
  reflexivity.
Qed.

Lemma generate_image_try_run (prompt : string) (w : World) (k : string) :
  getenv w KEY = Some k -> k <> EmptyString ->
  generate_image_try prompt w =
  match genai_Client w k with
  | Throws e => ([ClientNew k], Raised e)
  | Returns _ =>
      match generate_content w model_id [prompt] with
      | Throws e => (request_head k prompt, Raised e)
      | Returns response =>
          match parts response with
          | None =>
              (request_head k prompt,
               Raised (mkExn TypeError "'NoneType' object is not iterable"))
          | Some ps =>
              match first_image ps with
              | Some p =>
                  (request_head k prompt ++ text_prints (before_image ps)
                     ++ [Print "Image generated successfully!"],
                   result_of (as_image p))
              | None =>
                  (request_head k prompt ++ text_prints ps ++ [Print no_image_data],
                   Ret None)
              end
          end
      end
  end.
Proof.
  intros H Hk. unfold generate_image_try.
  rewrite (bind_ret _ _ _ (validate_present w H Hk)). cbn [app].
  destruct (genai_Client w k) as [[]|e] eqn:Hc.
  2:{ erewrite bind_raised; [reflexivity | apply call_throws; exact Hc]. }
  erewrite bind_ret by (apply call_returns; exact Hc).
  erewrite bind_ret by apply print_run.
  erewrite bind_ret by apply print_run.
  destruct (generate_content w model_id [prompt]) as [response|e] eqn:Hg.
  2:{ erewrite bind_raised; [reflexivity | apply call_throws; exact Hg]. }
  erewrite bind_ret by (apply call_returns; exact Hg).
  unfold iterate. destruct (parts response) as [ps|]; [|reflexivity].
  erewrite bind_ret by reflexivity. rewrite loop_run.
  destruct (first_image ps) as [p|]; reflexivity.
Qed.

Lemma generate_image_handler (prompt : string) (w : World) :
  generate_image prompt w =
  match generate_image_try prompt w with
  | (t, Raised e) => (t ++ fst (generation_failed e w), Ret None)
  | done => done
  end.
Proof.
  unfold generate_image. rewrite try_except_run.
  destruct (generate_image_try prompt w) as [t [a|e|c]]; try reflexivity.
  destruct (generation_failed_run e w) as (t' & -> & _). reflexivity.
Qed.

(** ** [save_image], case by case *)

Lemma save_failed_run (e : exn) (w : World) :
  save_failed e w = (save_diagnostic e, Ret None).
Proof. reflexivity. Qed.

Lemma save_image_try_run (image : Image) (output_dir : string) (w : World) :
  let fp := target output_dir w in
  save_image_try image output_dir w =
  if has_save image then
    match save_with_format image fp "PNG" with
    | Returns _ => ([SaveFormat fp "PNG"; saved_line w fp], Ret (Some fp))
    | Throws e =>
        if is_TypeError e then
          match save_plain image (Pathlib.to_string fp) with
          | Returns _ =>
              ([SaveFormat fp "PNG"; SavePlain (Pathlib.to_string fp); saved_line w fp],
               Ret (Some fp))
          | Throws e' =>
              ([SaveFormat fp "PNG"; SavePlain (Pathlib.to_string fp)], Raised e')
          end
        else ([SaveFormat fp "PNG"], Raised e)
    end
  else
    match file_open w fp with
    | Throws e => ([FileOpen fp "wb"], Raised e)
    | Returns _ =>
        match file_close w fp, file_write w fp image with
        | Returns _, Returns _ =>
            ([FileOpen fp "wb"; FileWrite fp; FileClose fp; saved_line w fp],
             Ret (Some fp))
        | Returns _, Throws e =>
            ([FileOpen fp "wb"; FileWrite fp; FileClose fp], Raised e)
        | Throws e', _ =>
            ([FileOpen fp "wb"; FileWrite fp; FileClose fp], Raised e')
        end
    end.
Proof.
  intros fp. unfold save_image_try.
  erewrite bind_ret by reflexivity. cbn [app]. fold (target output_dir w). fold fp.
  rewrite bind_run.
  destruct (has_save image).
  - rewrite try_except_run. unfold call.
    destruct (save_with_format image _ _) as [[]|e]; [reflexivity|].
    destruct (is_TypeError e); [|reflexivity].
    cbn. destruct (save_plain image _) as [[]|e']; reflexivity.
  - unfold with_open. rewrite bind_run. unfold call.
    destruct (file_open w fp) as [[]|e]; [|reflexivity].
    destruct (file_write w fp image) as [[]|e];
      destruct (file_close w fp) as [[]|e']; reflexivity.
Qed.

Lemma save_image_handler (image : Image) (output_dir : string) (w : World) :
  save_image image output_dir w =
  match save_image_try image output_dir w with
  | (t, Raised e) => (t ++ save_diagnostic e, Ret None)
  | done => done
  end.
Proof.
  unfold save_image. rewrite try_except_run.
  destruct (save_image_try image output_dir w) as [t [a|e|c]]; reflexivity.
Qed.

(** ** [main], case by case *)

Lemma main_run (argv : list string) (w : World) :
  main argv w =
  if length argv <? 2 then (usage, SystemExit 1)
  else
    let prompt := Str.join " " (skipn 1 argv) in
    if Str.falsy (Str.strip prompt)
    then ([Print "ERROR: Prompt cannot be empty."], SystemExit 1)
    else
      match generate_image prompt w with
      | (t, Ret (Some image)) =>
          match save_image image "." w with
          | (t', Ret (Some filepath)) => (t ++ t' ++ confirmation filepath, Ret tt)
          | (t', Ret None) => (t ++ t', SystemExit 1)
          | (t', Raised e) => (t ++ t', Raised e)
          | (t', SystemExit c) => (t ++ t', SystemExit c)
          end
      | (t, Ret None) => (t, SystemExit 1)
      | (t, Raised e) => (t, Raised e)
      | (t, SystemExit c) => (t, SystemExit c)
      end.
Proof.
  assert (Hexit : forall l, (emit_all l ;; sys_exit (A:=unit) 1) w = (l, SystemExit 1)).
  { intros l. erewrite bind_ret by apply emit_all_run. cbn. now rewrite app_nil_r. }
  unfold main, when.
  destruct (length argv <? 2).
  { erewrite bind_exit; [reflexivity | apply Hexit]. }
  erewrite bind_ret by reflexivity. cbn [app].
  destruct (Str.falsy (Str.strip _)).
  { erewrite bind_exit; reflexivity. }
  erewrite bind_ret by reflexivity. cbn [app].
  rewrite bind_run.
  destruct (generate_image _ w) as [t [[image|]|e|c]]; try reflexivity.
  - rewrite bind_run.
    destruct (save_image image "." w) as [t' [[filepath|]|e|c]]; try reflexivity.
    cbn. now rewrite app_nil_r.
  - cbn. now rewrite app_nil_r.
Qed.

(** ** Sample runs *)

Example run_success :
  script Sample.argv_apple
    (Sample.world [Sample.text_part "Here you go."; Sample.image_part Sample.gemini])
  = ([ ClientNew "secret";
       Print "Generating image with Nano Banana Pro...";
       Print ("Prompt: A red apple" +++ nl);
       GenerateContent model_id ["A red apple"];
       Print "Model response: Here you go.";
       Print "Image generated successfully!";
       SaveFormat (mkPath EmptyString ["nanobanana_20240309_070559.png"]) "PNG";
       SavePlain "nanobanana_20240309_070559.png";
       Print (nl +++ "Image saved to: /home/user/nanobanana_20240309_070559.png");
       Print (nl +++ check_mark +++ " Image generation complete!");
       Print (check_mark +++ " Saved as: nanobanana_20240309_070559.png") ],
     Ret tt).
Proof. reflexivity. Qed.

Example run_raw_bytes :
  save_image Sample.raw "out" (Sample.world [])
  = (let p := mkPath EmptyString ["out"; "nanobanana_20240309_070559.png"] in
     [ FileOpen p "wb"; FileWrite p; FileClose p;
       Print (nl +++ "Image saved to: /home/user/out/nanobanana_20240309_070559.png") ],
     Ret (Some (mkPath EmptyString ["out"; "nanobanana_20240309_070559.png"]))).
Proof. reflexivity. Qed.

Example run_no_image :
  script Sample.argv_apple (Sample.world [Sample.text_part "I cannot draw that."])
  = ([ ClientNew "secret";
       Print "Generating image with Nano Banana Pro...";
       Print ("Prompt: A red apple" +++ nl);
       GenerateContent model_id ["A red apple"];
       Print "Model response: I cannot draw that.";
       Print "ERROR: No image data found in API response." ],
     SystemExit 1).
Proof. reflexivity. Qed.

(** ** What can appear in a trace *)

Lemma text_prints_are_prints (ps : list Part) (ev : event) :
  In ev (text_prints ps) -> exists s, ev = Print s.
Proof.
  unfold text_prints. rewrite in_flat_map. intros (p & _ & H).
  destruct (text p); cbn in H; [|contradiction].
  destruct H as [H|[]]. eexists. symmetry. exact H.
Qed.

Ltac in_cases H :=
  repeat first
    [ apply in_app_or in H; destruct H as [H|H]
    | destruct H as [H|H]; [symmetry in H|]
    | contradiction H ].

Lemma generate_image_events (prompt : string) (w : World) (ev : event) :
  In ev (trace (generate_image prompt w)) ->
  (exists s, ev = Print s) \/
  (exists k, ev = ClientNew k /\ getenv w KEY = Some k /\ k <> EmptyString) \/
  ev = GenerateContent model_id [prompt].
Proof.
  unfold trace.
  destruct (getenv w KEY) as [k|] eqn:Hk.
  2:{ rewrite generate_image_no_key by (now left).
      intros H. left. cbn in H. in_cases H; eexists; exact H. }
  destruct (string_dec k EmptyString) as [->|Hne].
  { rewrite generate_image_no_key by (now right).
    intros H. left. cbn in H. in_cases H; eexists; exact H. }
  rewrite generate_image_handler, (generate_image_try_run prompt w Hk Hne).
  assert (Hfail : forall e ev', In ev' (fst (generation_failed e w)) -> exists s, ev' = Print s).
  { intros e ev' H. destruct (generation_failed_run e w) as (t & E & Hp).
    rewrite E in H. destruct H as [H|H]; [eexists; symmetry; exact H | now apply Hp]. }
  assert (Hhead : forall ev', In ev' (request_head k prompt) ->
            (exists s, ev' = Print s) \/
            (exists k', ev' = ClientNew k' /\ Some k = Some k' /\ k' <> EmptyString) \/
            ev' = GenerateContent model_id [prompt]).
  { intros ev' H. cbn in H. in_cases H; subst ev'; eauto 6. }
  destruct (genai_Client w k) as [[]|e].
  2:{ cbn. intros [H|H]; [right; left; eauto | left; eapply Hfail; exact H]. }
  destruct (generate_content w model_id [prompt]) as [response|e].
  2:{ cbn [fst]. intros H. apply in_app_or in H. destruct H as [H|H];
      [now apply Hhead | left; eapply Hfail; exact H]. }
  destruct (parts response) as [ps|].
  2:{ cbn [fst]. intros H. apply in_app_or in H. destruct H as [H|H];
      [now apply Hhead | left; eapply Hfail; exact H]. }
  destruct (first_image ps) as [p|].
  - destruct (as_image p) as [i|e]; cbn [result_of fst]; intros H;
      repeat (apply in_app_or in H; destruct H as [H|H]);
      try (now apply Hhead);
      try (left; eapply text_prints_are_prints; exact H);
      try (left; eapply Hfail; exact H);
      left; destruct H as [H|[]]; eexists; symmetry; exact H.
  - cbn [fst]. intros H.
    repeat (apply in_app_or in H; destruct H as [H|H]);
      try (now apply Hhead);
      try (left; eapply text_prints_are_prints; exact H).
    left; destruct H as [H|[]]; eexists; symmetry; exact H.
Qed.

Lemma save_image_events (image : Image) (output_dir : string) (w : World) (ev : event) :
  In ev (trace (save_image image output_dir w)) ->
  (exists s, ev = Print s) \/ is_save ev = true.
Proof.
  unfold trace. rewrite save_image_handler.
  pose proof (save_image_try_run image output_dir w) as E. cbv zeta in E. rewrite E.
  clear E. unfold saved_line, save_diagnostic.
  destruct (has_save image);
    [ destruct (save_with_format image _ _) as [[]|e];
      [| destruct (is_TypeError e); [destruct (save_plain image _) as [[]|e']|]]
    | destruct (file_open w _) as [[]|e];
      [destruct (file_close w _) as [[]|e']; try destruct (file_write w _ image) as [[]|e'']|] ];
    cbn; intros H; in_cases H; subst ev; eauto.
Qed.

(** ** The prompt *)

Lemma fold_spaced_prefix (l : list string) (pre b : string) :
  fold_left (fun acc x => acc +++ " " +++ x) l (pre +++ b) =
  pre +++ fold_left (fun acc x => acc +++ " " +++ x) l b.
Proof.
  revert b. induction l as [|c l IH]; intros b; cbn [fold_left]; [reflexivity|].
  rewrite append_assoc. apply IH.
Qed.

Lemma join_space_separated (l : list string) :
  Str.join " " l = space_separated l.
Proof.
  destruct l as [|a l]; [reflexivity|]. unfold space_separated.
  revert a. induction l as [|b l IH]; intros a; [reflexivity|].
  rewrite join_cons, IH. cbn [fold_left].
  rewrite <- (append_assoc a " " b), fold_spaced_prefix, append_assoc. reflexivity.
Qed.

Lemma main_events (argv : list string) (w : World) (ev : event) :
  In ev (trace (main argv w)) ->
  (exists s, ev = Print s) \/
  (exists k, ev = ClientNew k /\ getenv w KEY = Some k /\ k <> EmptyString) \/
  ev = GenerateContent model_id [Str.join " " (skipn 1 argv)] \/
  is_save ev = true.
Proof.
  unfold trace. rewrite main_run.
  destruct (length argv <? 2).
  { cbn. intros H. left. in_cases H; eexists; exact H. }
  cbv zeta. destruct (Str.falsy _).
  { cbn. intros H. left. in_cases H; eexists; exact H. }
  pose proof (generate_image_events (Str.join " " (skipn 1 argv)) w) as Hg.
  unfold trace in Hg.
  assert (Hg' : forall ev', In ev' (fst (generate_image (Str.join " " (skipn 1 argv)) w)) ->
     (exists s, ev' = Print s) \/
     (exists k, ev' = ClientNew k /\ getenv w KEY = Some k /\ k <> EmptyString) \/
     ev' = GenerateContent model_id [Str.join " " (skipn 1 argv)] \/
     is_save ev' = true).
  { intros ev' H. destruct (Hg ev' H) as [?|[?|?]]; auto. }
  clear Hg.
  destruct (generate_image _ w) as [t [[image|]|e|c]]; cbn [fst] in *; auto.
  assert (Hs : forall ev', In ev' (fst (save_image image "." w)) ->
     (exists s, ev' = Print s) \/ is_save ev' = true).
  { intros ev' H. exact (save_image_events image "." w ev' H). }
  destruct (save_image image "." w) as [t' [[filepath|]|e|c]]; cbn [fst] in *;
    intros H; repeat (apply in_app_or in H; destruct H as [H|H]); auto;
    try (destruct (Hs ev H) as [?|?]; now auto).
  left. cbn in H. in_cases H; eexists; exact H.
Qed.

(** C7. With at least one command-line argument the prompt is the
    arguments joined with single spaces: [Str.join " "] writes them one
    after the other with one space before each but the first; every
    generation request [main] sends carries exactly that string; when
    the prompt is not blank, the credential is set and the client is
    built, the request is sent; and ["A"; "red"; "apple"] gives
    "A red apple". *)
Theorem prompt_joins_arguments :
  forall (name a : string) (args : list string) (w : World),
    let argv := name :: a :: args in
    let prompt := Str.join " " (a :: args) in
    prompt = space_separated (a :: args)
    /\ (forall m c, In (GenerateContent m c) (trace (main argv w)) ->
          m = model_id /\ c = [prompt])
    /\ (forall k,
          whitespace_only prompt = false ->
          getenv w KEY = Some k -> k <> EmptyString ->
          genai_Client w k = Returns tt ->
          In (GenerateContent model_id [prompt]) (trace (main argv w)))
    /\ Str.join " " ["A"; "red"; "apple"] = "A red apple".
Proof.
  intros name a args w argv prompt. split; [apply join_space_separated|].
  split; [|split; [|reflexivity]].
  - intros m c H. apply main_events in H.
    destruct H as [(s & H)|[(k & H & _)|[H|H]]]; try discriminate.
    injection H as -> ->. split; reflexivity.
  - intros k Hblank Hk Hne Hc. unfold trace. rewrite main_run.
    change (length argv <? 2) with false. cbv iota zeta.
    change (skipn 1 argv) with (a :: args). fold prompt.
    destruct (Str.strip prompt) eqn:Es.
    { apply strip_empty_iff in Es. congruence. }
    cbn [Str.falsy].
    assert (Hin : forall t, In (GenerateContent model_id [prompt]) (request_head k prompt ++ t)).
    { intros t. apply in_or_app. left. cbn. auto. }
    rewrite generate_image_handler, (generate_image_try_run prompt w Hk Hne), Hc.
    destruct (generate_content w model_id [prompt]) as [response|e].
    2:{ cbn [fst]. apply Hin. }
    destruct (parts response) as [ps|]; [|cbn [fst]; apply Hin].
    destruct (first_image ps) as [p|].
    + destruct (as_image p) as [[i|]|e]; cbn [result_of fst]; try apply Hin.
      destruct (save_image i "." w) as [t' [[filepath|]|e|c]]; cbn [fst];
        rewrite <- ?app_assoc; apply Hin.
    + cbn [fst]. apply Hin.
Qed.

(** ** Rejected invocations *)




(** ** The credential *)

(** C4, as stated, fails when the arguments are rejected first: without
    a prompt and without a credential [main] prints the usage text and
    not the setup instructions. *)
Lemma missing_key_without_prompt_prints_usage :
  getenv Sample.world_no_key KEY = None
  /\ main ["generate.py"] Sample.world_no_key = (usage, SystemExit 1)
  /\ ~ incl setup_instructions (trace (main ["generate.py"] Sample.world_no_key)).
Proof.
  split; [reflexivity|]. split; [reflexivity|].
  intros H. specialize (H _ (or_introl eq_refl)). cbn in H.
  in_cases H; discriminate.
Qed.

(** C4, amended. When the credential is absent, every run of [main]
    ends with exit status 1 and performs neither the client construction
    nor the generation request; [generate_image] prints the setup
    instructions and leaves through [sys.exit(1)], which its
    [except Exception] clause does not stop; so a run of [main] whose
    prompt passes the argument checks prints exactly the setup
    instructions.  Once the import has succeeded the script is [main]. *)
Theorem missing_key_exits_before_network :
  forall (argv : list string) (w : World),
    getenv w KEY = None ->
    exit_status (outcome_of (main argv w)) = 1%Z
    /\ no_network (trace (main argv w))
    /\ (forall prompt, generate_image prompt w = (setup_instructions, SystemExit 1))
    /\ (2 <= length argv ->
        whitespace_only (Str.join " " (skipn 1 argv)) = false ->
        main argv w = (setup_instructions, SystemExit 1))
    /\ (import_genai w = Returns tt -> script argv w = main argv w).
Proof.
  intros argv w Hk.
  assert (Hg : forall prompt, generate_image prompt w = (setup_instructions, SystemExit 1)).
  { intros prompt. apply generate_image_no_key. now left. }
  assert (Hm : main argv w = (usage, SystemExit 1)
            \/ main argv w = ([Print "ERROR: Prompt cannot be empty."], SystemExit 1)
            \/ main argv w = (setup_instructions, SystemExit 1)).
  { rewrite main_run. destruct (length argv <? 2); [now left|].
    cbv zeta. destruct (Str.falsy _); [now right; left|].
    rewrite Hg. now right; right. }
  split; [|split; [|split; [exact Hg|split; [|apply script_after_import]]]].
  - destruct Hm as [->|[->| ->]]; reflexivity.
  - intros ev H. destruct Hm as [E|[E|E]]; rewrite E in H; cbn in H;
      in_cases H; subst ev; reflexivity.
  - intros Hlen Hblank. rewrite main_run.
    apply Nat.ltb_ge in Hlen. rewrite Hlen. cbv zeta.
    destruct (Str.strip _) eqn:Es.
    { apply strip_empty_iff in Es. congruence. }
    cbn [Str.falsy]. now rewrite Hg.
Qed.

Lemma missing_key_witness :
  getenv Sample.world_no_key KEY = None
  /\ main Sample.argv_apple Sample.world_no_key = (setup_instructions, SystemExit 1).
Proof.
  split; [reflexivity|].
  apply (proj1 (proj2 (proj2 (proj2 (missing_key_exits_before_network
                                        Sample.argv_apple Sample.world_no_key eq_refl))))).
  - cbn. lia.
  - reflexivity.
Defined.

(** ** The response parts *)

Lemma first_image_split (pre : list Part) (p : Part) (post : list Part) :
  Forall (fun q => image_only q = false) pre -> image_only p = true ->
  first_image (pre ++ p :: post) = Some p /\ before_image (pre ++ p :: post) = pre.
Proof.
  intros Hpre Hp. unfold first_image.
  induction Hpre as [|q pre Hq _ IH]; cbn; [now rewrite Hp|].
  rewrite Hq. destruct IH as [-> ->]. split; reflexivity.
Qed.

Lemma first_image_none (ps : list Part) :
  Forall (fun q => image_only q = false) ps -> first_image ps = None.
Proof.
  unfold first_image. induction 1 as [|q ps Hq _ IH]; cbn; [reflexivity|].
  now rewrite Hq.
Qed.

Lemma first_image_some (ps : list Part) (p : Part) :
  first_image ps = Some p -> In p ps /\ image_only p = true.
Proof. unfold first_image. apply find_some. Qed.

Lemma generate_image_iterated (prompt : string) (w : World) (k : string) (ps : list Part) :
  iterates w prompt k ps ->
  generate_image prompt w =
  match first_image ps with
  | Some p =>
      let t := request_head k prompt ++ text_prints (before_image ps)
                 ++ [Print "Image generated successfully!"] in
      match as_image p with
      | Returns i => (t, Ret i)
      | Throws e => (t ++ fst (generation_failed e w), Ret None)
      end
  | None =>
      (request_head k prompt ++ text_prints ps ++ [Print no_image_data], Ret None)
  end.
Proof.
  intros (Hk & Hne & Hc & response & Hg & Hp).
  rewrite generate_image_handler, (generate_image_try_run prompt w Hk Hne), Hc, Hg, Hp.
  destruct (first_image ps) as [p|]; [|reflexivity].
  destruct (as_image p); reflexivity.
Qed.

(** C3, as stated, fails on a response whose first part carries both a
    caption and image data, followed by an image and by a closing text:
    the closing text is never printed, and the image returned is not
    that of the first part carrying image data. *)
Lemma text_after_the_image_is_not_printed :
  let ps := [ Sample.captioned_part "see attached" Sample.pil;
              Sample.image_part Sample.gemini;
              Sample.text_part "enjoy" ] in
  let run := generate_image "a cat" (Sample.world ps) in
  iterates (Sample.world ps) "a cat" "secret" ps
  /\ In (Sample.text_part "enjoy") ps
  /\ ~ In (Print "Model response: enjoy") (trace run)
  /\ find carries_image ps = Some (Sample.captioned_part "see attached" Sample.pil)
  /\ outcome_of run = Ret (Some Sample.gemini)
  /\ Sample.gemini <> Sample.pil.
Proof.
  cbv zeta. split; [|split; [|split; [|split; [|split]]]].
  - repeat split; try reflexivity; try discriminate. eexists; split; reflexivity.
  - cbn; auto.
  - intros H. cbn in H. in_cases H; discriminate.
  - reflexivity.
  - reflexivity.
  - intros H.
    apply (f_equal (fun i => save_with_format i (mkPath EmptyString []) "PNG")) in H.
    discriminate H.
Qed.

(** C3, amended. For every response whose parts are iterated, the
    handler visits the parts in order and prints the text of each part
    it visits; it stops at the first part that has no text and carries
    inline data, and returns what [as_image] gives for that part (parts
    after it are not visited, and a part with both text and inline data
    counts as text).  When no part is of that kind it prints the text of
    every part, then the no-image-data error, returns [None], and [main]
    leaves with exit status 1. *)
Theorem response_parts_in_order :
  forall (prompt : string) (w : World) (k : string) (ps : list Part),
    iterates w prompt k ps ->
    (forall pre p post,
        ps = pre ++ p :: post ->
        Forall (fun q => image_only q = false) pre ->
        image_only p = true ->
        (exists t,
            trace (generate_image prompt w) =
            request_head k prompt ++ text_prints pre
              ++ Print "Image generated successfully!" :: t)
        /\ (forall i, as_image p = Returns i ->
              generate_image prompt w =
              (request_head k prompt ++ text_prints pre
                 ++ [Print "Image generated successfully!"], Ret i)))
    /\ (Forall (fun q => image_only q = false) ps ->
        generate_image prompt w =
          (request_head k prompt ++ text_prints ps ++ [Print no_image_data], Ret None)
        /\ forall argv,
            2 <= length argv ->
            Str.join " " (skipn 1 argv) = prompt ->
            whitespace_only prompt = false ->
            main argv w =
              (request_head k prompt ++ text_prints ps ++ [Print no_image_data],
               SystemExit 1)
            /\ exit_status (outcome_of (main argv w)) <> 0%Z).
Proof.
  intros prompt w k ps Hit. pose proof (generate_image_iterated Hit) as E. split.
  - intros pre p post -> Hpre Hp.
    destruct (@first_image_split pre p post Hpre Hp) as [Hf Hb].
    rewrite Hf, Hb in E. cbv zeta in E. split.
    + rewrite E. destruct (as_image p) as [i|e]; unfold trace; cbn [fst].
      * exists []. reflexivity.
      * exists (fst (generation_failed e w)). now rewrite <- !app_assoc.
    + intros i Hi. now rewrite E, Hi.
  - intros Hnone. rewrite (first_image_none Hnone) in E. split; [exact E|].
    intros argv Hlen Hjoin Hblank.
    assert (Em : main argv w =
      (request_head k prompt ++ text_prints ps ++ [Print no_image_data], SystemExit 1)).
    { rewrite main_run. apply Nat.ltb_ge in Hlen. rewrite Hlen. cbv zeta.
      rewrite Hjoin. destruct (Str.strip prompt) eqn:Es.
      { apply strip_empty_iff in Es. congruence. }
      cbn [Str.falsy]. now rewrite E. }
    split; [exact Em|]. rewrite Em. discriminate.
Qed.

Lemma response_parts_witness :
  let ps := [ Sample.text_part "here it is"; Sample.image_part Sample.pil;
              Sample.text_part "enjoy" ] in
  iterates (Sample.world ps) "a cat" "secret" ps
  /\ generate_image "a cat" (Sample.world ps) =
     (request_head "secret" "a cat" ++ text_prints [Sample.text_part "here it is"]
        ++ [Print "Image generated successfully!"], Ret (Some Sample.pil)).
Proof.
  cbv zeta.
  assert (H : iterates
                (Sample.world [ Sample.text_part "here it is";
                                Sample.image_part Sample.pil;
                                Sample.text_part "enjoy" ])
                "a cat" "secret"
                [ Sample.text_part "here it is"; Sample.image_part Sample.pil;
                  Sample.text_part "enjoy" ]).
  { split; [reflexivity|]. split; [discriminate|]. split; [reflexivity|].
    eexists. split; reflexivity. }
  split; [exact H|].
  refine (proj2 (proj1 (response_parts_in_order H)
                   [Sample.text_part "here it is"] (Sample.image_part Sample.pil)
                   [Sample.text_part "enjoy"] eq_refl _ eq_refl) _ eq_refl).
  repeat constructor.
Defined.

Lemma captioned_not_image_only (ps : list Part) :
  (forall p, In p ps -> carries_image p = true -> carries_text p = true) ->
  Forall (fun q => image_only q = false) ps.
Proof.
  intros H. apply Forall_forall. intros p Hin. specialize (H p Hin).
  unfold image_only, carries_image, carries_text in *.
  destruct (text p); [reflexivity|].
  destruct (inline_data p); [|reflexivity].
  specialize (H eq_refl). discriminate.
Qed.

Lemma text_prints_app (ps qs : list Part) :
  text_prints (ps ++ qs) = text_prints ps ++ text_prints qs.
Proof. unfold text_prints. apply flat_map_app. Qed.

Lemma first_image_skip (pre : list Part) (p : Part) (post : list Part) :
  Forall (fun q => image_only q = false) pre -> image_only p = false ->
  first_image (pre ++ p :: post) = first_image post
  /\ before_image (pre ++ p :: post) = pre ++ p :: before_image post.
Proof.
  intros Hpre Hp. unfold first_image.
  induction Hpre as [|q pre Hq _ IH]; cbn; [now rewrite Hp|].
  rewrite Hq. destruct IH as [-> ->]. split; reflexivity.
Qed.

(** C9, as stated, fails for a captioned part that comes after the
    first text-free image part: the loop has returned before it gets
    there, and the caption is never printed. *)
Lemma captioned_part_after_image_is_not_printed :
  let captioned := Sample.captioned_part "see attached" Sample.gemini in
  let ps := [Sample.image_part Sample.pil; captioned] in
  let run := generate_image "a cat" (Sample.world ps) in
  iterates (Sample.world ps) "a cat" "secret" ps
  /\ In captioned ps
  /\ text captioned = Some "see attached"
  /\ inline_data captioned = Some Sample.png
  /\ ~ In (Print "Model response: see attached") (trace run)
  /\ outcome_of run = Ret (Some Sample.pil).
Proof.
  cbv zeta. split; [|split; [|split; [|split; [|split]]]].
  - repeat split; try reflexivity; try discriminate. eexists; split; reflexivity.
  - cbn; auto.
  - reflexivity.
  - reflexivity.
  - intros H. cbn in H. in_cases H; discriminate H.
  - reflexivity.
Qed.

(** C9, amended. In a run that iterates over the parts of the response:
    a part with both text and inline image data that the loop reaches
    (no text-free part with inline data comes before it) is printed as
    "Model response: ..." after the texts of the parts before it, and
    the loop goes on without returning; the image [generate_image]
    returns always comes from a part without text; and when every part
    with image data also has text, all texts are printed, then the
    no-image-data error, and [generate_image] returns [None].  (A part
    behind the first text-free image part is not visited.) *)
Theorem captioned_part_is_commentary_when_reached :
  forall (prompt : string) (w : World) (k : string) (ps : list Part),
    iterates w prompt k ps ->
    (forall pre p post t b,
        ps = pre ++ p :: post ->
        Forall (fun q => image_only q = false) pre ->
        text p = Some t -> inline_data p = Some b ->
        visit_part p w = ([Print ("Model response: " +++ t)], Ret Continue)
        /\ exists rest,
             trace (generate_image prompt w) =
             request_head k prompt ++ text_prints pre
               ++ Print ("Model response: " +++ t) :: rest)
    /\ (forall i,
          outcome_of (generate_image prompt w) = Ret (Some i) ->
          exists pre p post,
            ps = pre ++ p :: post
            /\ Forall (fun q => image_only q = false) pre
            /\ text p = None /\ inline_data p <> None
            /\ as_image p = Returns (Some i))
    /\ ((forall p, In p ps -> carries_image p = true -> carries_text p = true) ->
        generate_image prompt w =
        (request_head k prompt ++ text_prints ps ++ [Print no_image_data], Ret None)).
Proof.
  intros prompt w k ps Hit. pose proof (generate_image_iterated Hit) as E.
  split; [|split].
  - intros pre p post t b -> Hpre Ht Hb. split.
    { unfold visit_part. rewrite Ht. reflexivity. }
    assert (Hp : image_only p = false) by (unfold image_only; now rewrite Ht).
    destruct (@first_image_skip pre p post Hpre Hp) as [Hf Hbefore].
    assert (Hone : forall l, text_prints (p :: l)
                             = Print ("Model response: " +++ t) :: text_prints l).
    { intros l. unfold text_prints. cbn [flat_map]. now rewrite Ht. }
    unfold trace. rewrite E, Hf, Hbefore, !text_prints_app, !Hone. cbv zeta.
    destruct (first_image post) as [q|]; [destruct (as_image q) as [i|e]|]; cbn [fst];
      rewrite <- ?app_assoc; cbn [app]; eexists; reflexivity.
  - intros i. rewrite E. unfold outcome_of.
    destruct (first_image ps) as [p|] eqn:Hf; [|discriminate].
    cbv zeta. destruct (as_image p) as [j|e] eqn:Ha; cbn [snd]; [|discriminate].
    intros [= ->].
    assert (Hsplit : exists pre post, ps = pre ++ p :: post
                       /\ Forall (fun q => image_only q = false) pre
                       /\ image_only p = true).
    { clear -Hf. unfold first_image in Hf. induction ps as [|q ps IH]; [discriminate|].
      cbn in Hf. destruct (image_only q) eqn:Hq.
      - injection Hf as ->. exists [], ps. repeat split; [constructor|exact Hq].
      - destruct (IH Hf) as (pre & post & -> & Hpre & Hp).
        exists (q :: pre), post. repeat split; [constructor; assumption|exact Hp]. }
    destruct Hsplit as (pre & post & Hps & Hpre & Hp).
    exists pre, p, post. split; [exact Hps|]. split; [exact Hpre|].
    unfold image_only in Hp.
    destruct (text p); [discriminate|]. destruct (inline_data p); [|discriminate].
    repeat split; [discriminate|exact Ha].
  - intros Hall. rewrite E, (first_image_none (captioned_not_image_only ps Hall)).
    reflexivity.
Qed.

Lemma captioned_part_witness :
  let ps := [ Sample.text_part "here it is";
              Sample.captioned_part "see attached" Sample.pil ] in
  iterates (Sample.world ps) "a cat" "secret" ps
  /\ generate_image "a cat" (Sample.world ps) =
     (request_head "secret" "a cat"
        ++ [Print "Model response: here it is"; Print "Model response: see attached"]
        ++ [Print no_image_data], Ret None).
Proof.
  cbv zeta.
  assert (H : iterates
                (Sample.world [ Sample.text_part "here it is";
                                Sample.captioned_part "see attached" Sample.pil ])
                "a cat" "secret"
                [ Sample.text_part "here it is";
                  Sample.captioned_part "see attached" Sample.pil ]).
  { split; [reflexivity|]. split; [discriminate|]. split; [reflexivity|].
    eexists. split; reflexivity. }
  split; [exact H|].
  apply (proj2 (proj2 (captioned_part_is_commentary_when_reached H))).
  intros p [<-|[<-|[]]] _; reflexivity.
Defined.

(** ** Error guidance *)

Lemma guidance_for_at_most_one (s : string) : length (guidance_for s) <= 1.
Proof.
  unfold guidance_for.
  destruct (credential_words s), (throttling_words s), (connectivity_words s);
    cbn; lia.
Qed.

(** C10. For every error caught by [generate_image], the handler prints
    the error line and then the guidance chosen on the lowered message
    with a fixed priority: the credential block when "api key" or
    "authentication" occurs; otherwise the throttling block when "quota"
    or "rate limit" occurs; otherwise the connectivity block when
    "network" or "connection" occurs; otherwise nothing.  At most one
    block is printed, also when several categories match, and
    [generate_image] returns [None]. *)
Theorem guidance_is_exclusive_with_priority :
  forall (e : exn) (w : World),
    let s := Str.lower (exn_str e) in
    exists blocks : list guidance,
      generation_failed e w = (error_line e :: flat_map guidance_block blocks, Ret None)
      /\ length blocks <= 1
      /\ (credential_words s = true -> blocks = [Credential])
      /\ (credential_words s = false -> throttling_words s = true ->
          blocks = [Throttling])
      /\ (credential_words s = false -> throttling_words s = false ->
          connectivity_words s = true -> blocks = [Connectivity])
      /\ (credential_words s = false -> throttling_words s = false ->
          connectivity_words s = false -> blocks = [])
      /\ (forall prompt t,
            generate_image_try prompt w = (t, Raised e) ->
            generate_image prompt w =
            (t ++ error_line e :: flat_map guidance_block blocks, Ret None)).
Proof.
  intros e w s. exists (guidance_for s).
  assert (E : generation_failed e w =
              (error_line e :: flat_map guidance_block (guidance_for s), Ret None)).
  { unfold generation_failed. erewrite bind_ret by apply print_run.
    fold s. fold (credential_words s) (throttling_words s) (connectivity_words s).
    unfold guidance_for.
    destruct (credential_words s);
      [|destruct (throttling_words s); [|destruct (connectivity_words s)]];
      reflexivity. }
  split; [exact E|]. split; [apply guidance_for_at_most_one|].
  unfold guidance_for.
  repeat split.
  - now intros ->.
  - now intros -> ->.
  - now intros -> -> ->.
  - now intros -> -> ->.
  - intros prompt t Ht. rewrite generate_image_handler, Ht, E. reflexivity.
Qed.

Example several_categories_one_block :
  generate_image "a cat"
    (Sample.world_request_fails "Connection reset: quota check failed for this API key")
  = (request_head "secret" "a cat"
       ++ Print "ERROR: Failed to generate image: Connection reset: quota check failed for this API key"
       :: guidance_block Credential,
     Ret None).
Proof. reflexivity. Qed.

(** ** Saving *)

Lemma save_image_run (image : Image) (output_dir : string) (w : World) :
  let fp := target output_dir w in
  save_image image output_dir w =
  if has_save image then
    match save_with_format image fp "PNG" with
    | Returns _ => ([SaveFormat fp "PNG"; saved_line w fp], Ret (Some fp))
    | Throws e =>
        if is_TypeError e then
          match save_plain image (Pathlib.to_string fp) with
          | Returns _ =>
              ([SaveFormat fp "PNG"; SavePlain (Pathlib.to_string fp); saved_line w fp],
               Ret (Some fp))
          | Throws e' =>
              ([SaveFormat fp "PNG"; SavePlain (Pathlib.to_string fp)]
                 ++ save_diagnostic e', Ret None)
          end
        else ([SaveFormat fp "PNG"] ++ save_diagnostic e, Ret None)
    end
  else
    match file_open w fp with
    | Throws e => ([FileOpen fp "wb"] ++ save_diagnostic e, Ret None)
    | Returns _ =>
        match file_close w fp, file_write w fp image with
        | Returns _, Returns _ =>
            ([FileOpen fp "wb"; FileWrite fp; FileClose fp; saved_line w fp],
             Ret (Some fp))
        | Returns _, Throws e =>
            ([FileOpen fp "wb"; FileWrite fp; FileClose fp] ++ save_diagnostic e,
             Ret None)
        | Throws e', _ =>
            ([FileOpen fp "wb"; FileWrite fp; FileClose fp] ++ save_diagnostic e',
             Ret None)
        end
    end.
Proof.
  intros fp. rewrite save_image_handler.
  pose proof (save_image_try_run image output_dir w) as E. cbv zeta in E.
  rewrite E. clear E. fold fp.
  destruct (has_save image);
    [ destruct (save_with_format image _ _) as [[]|e];
      [| destruct (is_TypeError e); [destruct (save_plain image _) as [[]|e']|]]
    | destruct (file_open w fp) as [[]|e];
      [destruct (file_close w fp) as [[]|e'];
       try destruct (file_write w fp image) as [[]|e'']|] ];
    reflexivity.
Qed.

(** C5. [save_image] never lets an exception out: it returns the path
    or [None].  On an object with a [save] attribute the first thing it
    does is [image.save(filepath, "PNG")]; when that raises [TypeError]
    the next thing is [image.save(str(filepath))], and otherwise the
    plain form is not called; an object without [save] is written
    through [open(filepath, 'wb')] and [f.write].  Whenever the
    operation in use raises, the diagnostic is printed and the result is
    [None]. *)
Theorem save_image_dispatch :
  forall (image : Image) (output_dir : string) (w : World),
    let fp := target output_dir w in
    let run := save_image image output_dir w in
    (outcome_of run = Ret (Some fp) \/
     exists e t, outcome_of run = Ret None /\ trace run = t ++ save_diagnostic e)
    /\ (has_save image = true ->
        (exists t, trace run = SaveFormat fp "PNG" :: t)
        /\ (forall ev, In ev (trace run) ->
              forall p m, ev <> FileOpen p m /\ ev <> FileWrite p)
        /\ (forall e, save_with_format image fp "PNG" = Throws e -> is_TypeError e = true ->
              exists t, trace run
                        = SaveFormat fp "PNG" :: SavePlain (Pathlib.to_string fp) :: t)
        /\ (forall e e', save_with_format image fp "PNG" = Throws e -> is_TypeError e = true ->
              save_plain image (Pathlib.to_string fp) = Throws e' ->
              run = ([SaveFormat fp "PNG"; SavePlain (Pathlib.to_string fp)]
                       ++ save_diagnostic e', Ret None))
        /\ (forall e, save_with_format image fp "PNG" = Throws e -> is_TypeError e = false ->
              run = ([SaveFormat fp "PNG"] ++ save_diagnostic e, Ret None))
        /\ (save_with_format image fp "PNG" = Returns tt ->
              run = ([SaveFormat fp "PNG"; saved_line w fp], Ret (Some fp))))
    /\ (has_save image = false ->
        (exists t, trace run = FileOpen fp "wb" :: t)
        /\ (forall ev, In ev (trace run) ->
              forall p m s, ev <> SaveFormat p m /\ ev <> SavePlain s)
        /\ (file_open w fp = Returns tt ->
            exists t, trace run = FileOpen fp "wb" :: FileWrite fp :: FileClose fp :: t)
        /\ (forall e, file_open w fp = Throws e ->
              run = ([FileOpen fp "wb"] ++ save_diagnostic e, Ret None))
        /\ (forall e, file_open w fp = Returns tt ->
              file_write w fp image = Throws e \/ file_close w fp = Throws e ->
              outcome_of run = Ret None)).
Proof.
  intros image output_dir w fp run.
  pose proof (save_image_run image output_dir w) as E. cbv zeta in E.
  fold fp in E. fold run in E. unfold outcome_of, trace.
  split; [|split].
  - rewrite E.
    destruct (has_save image);
      [ destruct (save_with_format image _ _) as [[]|e];
        [| destruct (is_TypeError e); [destruct (save_plain image _) as [[]|e']|]]
      | destruct (file_open w fp) as [[]|e];
        [destruct (file_close w fp) as [[]|e'];
         try destruct (file_write w fp image) as [[]|e'']|] ];
      cbn [fst snd]; auto; right; do 2 eexists; split; reflexivity.
  - intros Hs. rewrite Hs in E. rewrite E. clear E.
    split; [|split; [|split; [|split; [|split]]]].
    + destruct (save_with_format image _ _) as [[]|e];
        [| destruct (is_TypeError e); [destruct (save_plain image _) as [[]|e']|]];
        cbn [fst app]; eexists; reflexivity.
    + intros ev H p m.
      destruct (save_with_format image _ _) as [[]|e];
        [| destruct (is_TypeError e); [destruct (save_plain image _) as [[]|e']|]];
        cbn in H; in_cases H; subst ev; split; discriminate.
    + intros e H H0. rewrite H, H0. destruct (save_plain image _) as [[]|e'];
        cbn [fst app]; eexists; reflexivity.
    + intros e e' -> -> ->. reflexivity.
    + intros e -> ->. reflexivity.
    + intros ->. reflexivity.
  - intros Hs. rewrite Hs in E. rewrite E. clear E.
    split; [|split; [|split; [|split]]].
    + destruct (file_open w fp) as [[]|e];
        [destruct (file_close w fp) as [[]|e'];
         try destruct (file_write w fp image) as [[]|e'']|];
        cbn [fst app]; eexists; reflexivity.
    + intros ev H p m s.
      destruct (file_open w fp) as [[]|e];
        [destruct (file_close w fp) as [[]|e'];
         try destruct (file_write w fp image) as [[]|e'']|];
        cbn in H; in_cases H; subst ev; split; discriminate.
    + intros ->. destruct (file_close w fp) as [[]|e'];
        try destruct (file_write w fp image) as [[]|e''];
        cbn [fst app]; eexists; reflexivity.
    + intros e ->. reflexivity.
    + intros e -> [Hw|Hc].
      * rewrite Hw. destruct (file_close w fp) as [[]|e']; reflexivity.
      * rewrite Hc. reflexivity.
Qed.

(** ** The file name *)

Lemma digit_is_digit (x : Z) : (0 <= x < 10)%Z -> is_digit (Datetime.digit x) = true.
Proof.
  intros H.
  assert (C : (x = 0 \/ x = 1 \/ x = 2 \/ x = 3 \/ x = 4 \/
               x = 5 \/ x = 6 \/ x = 7 \/ x = 8 \/ x = 9)%Z) by lia.
  repeat (destruct C as [->|C]; [reflexivity|]). subst x. reflexivity.
Qed.

Lemma is_digit_not_slash (c : ascii) : is_digit c = true -> Ascii.eqb c "/" = false.
Proof.
  destruct c as [[] [] [] [] [] [] [] []]; cbn; intros H;
    solve [reflexivity | discriminate H].
Qed.

Lemma fmt2_digits (n : Z) :
  (0 <= n < 100)%Z ->
  exists a b, Datetime.fmt2 n = String a (String b EmptyString)
              /\ is_digit a = true /\ is_digit b = true.
Proof.
  intros H. exists (Datetime.digit (n / 10)), (Datetime.digit (n mod 10)).
  split; [reflexivity|].
  split; apply digit_is_digit.
  - split; [apply Z.div_pos; lia | apply Z.div_lt_upper_bound; lia].
  - apply Z.mod_pos_bound. lia.
Qed.

Lemma split_sep_no_slash (s : string) :
  no_slash s = true -> Pathlib.split_sep s = (s, []).
Proof.
  induction s as [|c s IH]; cbn; [reflexivity|].
  intros H. apply andb_prop in H. destruct H as [Hc Hs].
  rewrite (IH Hs). apply negb_true_iff in Hc. now rewrite Hc.
Qed.

(** The shape of the file name under a well-formed clock: fourteen
    digits around the literal pieces. *)
Lemma filename_shape (d : datetime) :
  Datetime.wf d ->
  exists y1 y2 y3 y4 m1 m2 d1 d2 h1 h2 n1 n2 s1 s2 : ascii,
    Forall (fun c => is_digit c = true)
           [y1; y2; y3; y4; m1; m2; d1; d2; h1; h2; n1; n2; s1; s2]
    /\ Datetime.strftime_Ymd_HMS d =
       String y1 (String y2 (String y3 (String y4 (String m1 (String m2
       (String d1 (String d2 (String "_" (String h1 (String h2 (String n1
       (String n2 (String s1 (String s2 EmptyString)))))))))))))).
Proof.
  intros (Hy & Hm & Hd & Hh & Hn & Hs).
  destruct (@fmt2_digits (Datetime.year d / 100)) as (y1 & y2 & Ey1 & ? & ?).
  { split; [apply Z.div_pos; lia | apply Z.div_lt_upper_bound; lia]. }
  destruct (@fmt2_digits (Datetime.year d mod 100)) as (y3 & y4 & Ey2 & ? & ?).
  { apply Z.mod_pos_bound. lia. }
  destruct (@fmt2_digits (Datetime.month d)) as (m1 & m2 & Em & ? & ?); [lia|].
  destruct (@fmt2_digits (Datetime.day d)) as (d1 & d2 & Ed & ? & ?); [lia|].
  destruct (@fmt2_digits (Datetime.hour d)) as (h1 & h2 & Eh & ? & ?); [lia|].
  destruct (@fmt2_digits (Datetime.minute d)) as (n1 & n2 & En & ? & ?); [lia|].
  destruct (@fmt2_digits (Datetime.second d)) as (s1 & s2 & Es & ? & ?); [lia|].
  exists y1, y2, y3, y4, m1, m2, d1, d2, h1, h2, n1, n2, s1, s2.
  split; [repeat constructor; assumption|].
  unfold Datetime.strftime_Ymd_HMS, Datetime.fmt4.
  rewrite Ey1, Ey2, Em, Ed, Eh, En, Es. reflexivity.
Qed.

Lemma filename_matches (d : datetime) :
  Datetime.wf d ->
  matches_pattern (filename_at d) = true
  /\ Pathlib.of_string (filename_at d) = mkPath EmptyString [filename_at d].
Proof.
  intros Hwf. unfold filename_at.
  destruct (filename_shape Hwf)
    as (y1 & y2 & y3 & y4 & m1 & m2 & d1 & d2 & h1 & h2 & n1 & n2 & s1 & s2 & Hall & ->).
  repeat match goal with
         | H : Forall _ (_ :: _) |- _ => inversion_clear H
         end.
  split.
  - unfold matches_pattern. cbn.
    repeat match goal with H : is_digit _ = true |- _ => rewrite H; clear H end.
    reflexivity.
  - unfold Pathlib.of_string, Pathlib.segments.
    rewrite split_sep_no_slash; [reflexivity|].
    cbn.
    repeat match goal with
           | H : is_digit _ = true |- _ => rewrite (is_digit_not_slash _ H); clear H
           end.
    reflexivity.
Qed.

Lemma filename_not_absolute (d : datetime) :
  Pathlib.is_absolute (Pathlib.of_string (filename_at d)) = false.
Proof. reflexivity. Qed.

Lemma target_run (output_dir : string) (w : World) :
  target output_dir w =
  mkPath (Pathlib.root (Pathlib.of_string output_dir))
         (Pathlib.parts (Pathlib.of_string output_dir)
            ++ Pathlib.parts (Pathlib.of_string (filename_at (now w)))).
Proof.
  unfold target, Pathlib.joinpath. now rewrite filename_not_absolute.
Qed.


Lemma save_image_returns_target (image : Image) (output_dir : string) (w : World) p :
  outcome_of (save_image image output_dir w) = Ret (Some p) ->
  p = target output_dir w
  /\ exists t, trace (save_image image output_dir w) = t ++ [saved_line w p].
Proof.
  pose proof (save_image_run image output_dir w) as E. cbv zeta in E.
  unfold trace, outcome_of. rewrite E. clear E.
  destruct (has_save image);
    [ destruct (save_with_format image _ _) as [[]|e];
      [| destruct (is_TypeError e); [destruct (save_plain image _) as [[]|e']|]]
    | destruct (file_open w _) as [[]|e];
      [destruct (file_close w _) as [[]|e'];
       try destruct (file_write w _ image) as [[]|e'']|] ];
    cbn [fst snd]; intros [= <-]; (split; [reflexivity|]).
  - now exists [SaveFormat (target output_dir w) "PNG"].
  - now exists [SaveFormat (target output_dir w) "PNG";
                SavePlain (Pathlib.to_string (target output_dir w))].
  - now exists [FileOpen (target output_dir w) "wb"; FileWrite (target output_dir w);
                FileClose (target output_dir w)].
Qed.



(** ** The returned path *)

Lemma is_absolute_of_string (s : string) :
  Pathlib.is_absolute (Pathlib.of_string s) = prefix "/" s.
Proof.
  unfold Pathlib.is_absolute, Pathlib.of_string. cbn [Pathlib.root].
  destruct s as [|c s]; [reflexivity|].
  destruct c as [[] [] [] [] [] [] [] []]; try reflexivity.
  destruct s as [|c s]; [reflexivity|].
  destruct c as [[] [] [] [] [] [] [] []]; try reflexivity.
  destruct s as [|c s]; [reflexivity|].
  destruct c as [[] [] [] [] [] [] [] []]; reflexivity.
Qed.

(** C2, as stated, fails for the default directory: the path returned
    is the bare file name, relative, and differs from the absolute path
    of the file that was written. *)
Lemma default_directory_returns_relative_path :
  let w := Sample.world [] in
  let p := mkPath EmptyString ["nanobanana_20240309_070559.png"] in
  save_image Sample.pil "." w = ([SaveFormat p "PNG"; saved_line w p], Ret (Some p))
  /\ Pathlib.is_absolute p = false
  /\ Pathlib.to_string p = "nanobanana_20240309_070559.png"
  /\ Pathlib.to_string (Pathlib.absolute (cwd w) p)
     = "/home/user/nanobanana_20240309_070559.png"
  /\ p <> Pathlib.absolute (cwd w) p.
Proof.
  cbv zeta. repeat split; try reflexivity. discriminate.
Qed.

(** C2, amended. On every successful save, [save_image] returns the
    output directory joined with the generated file name.  That path is
    absolute exactly when the output directory is (it starts with a
    slash), in which case it is its own absolute form; for a relative
    directory, as the default ".", it stays relative.  The absolute path
    is what the closing "Image saved to:" line prints. *)
Theorem save_image_returns_joined_path :
  forall (image : Image) (output_dir : string) (w : World) (p : Path),
    outcome_of (save_image image output_dir w) = Ret (Some p) ->
    p = Pathlib.joinpath (Pathlib.of_string output_dir) (filename_at (now w))
    /\ Pathlib.is_absolute p = prefix "/" output_dir
    /\ (prefix "/" output_dir = true -> Pathlib.absolute (cwd w) p = p)
    /\ (prefix "/" output_dir = false ->
        Pathlib.absolute (cwd w) p =
        mkPath (Pathlib.root (cwd w)) (Pathlib.parts (cwd w) ++ Pathlib.parts p))
    /\ (exists t,
          trace (save_image image output_dir w) =
          t ++ [Print (nl +++ "Image saved to: "
                         +++ Pathlib.to_string (Pathlib.absolute (cwd w) p))]).
Proof.
  intros image output_dir w p Hret.
  apply save_image_returns_target in Hret. destruct Hret as [-> Ht].
  assert (Ha : Pathlib.is_absolute (target output_dir w) = prefix "/" output_dir).
  { rewrite target_run, <- is_absolute_of_string. reflexivity. }
  split; [reflexivity|]. split; [exact Ha|].
  unfold Pathlib.absolute. rewrite Ha.
  split; [now intros ->|]. split; [now intros ->|].
  destruct Ht as (t & Ht). exists t. rewrite Ht. unfold saved_line, Pathlib.absolute.
  now rewrite Ha.
Qed.

Lemma save_image_returns_joined_witness :
  outcome_of (save_image Sample.gemini "/tmp/out" (Sample.world []))
  = Ret (Some (mkPath "/" ["tmp"; "out"; "nanobanana_20240309_070559.png"]))
  /\ Pathlib.is_absolute (mkPath "/" ["tmp"; "out"; "nanobanana_20240309_070559.png"])
     = prefix "/" "/tmp/out".
Proof.
  split; [reflexivity|].
  exact (proj1 (proj2 (@save_image_returns_joined_path
                         Sample.gemini "/tmp/out" (Sample.world []) _ eq_refl))).
Defined.

(** ** The import block and the exit status *)

Lemma installed_rerun_run (w : World) :
  installed_rerun w = (installed_lines, SystemExit 0).
Proof. reflexivity. Qed.

Lemma import_block_run (w : World) :
  import_block w =
  match import_genai w with
  | Returns _ => ([], Ret tt)
  | Throws e =>
      if is_ImportError e then
        let user := SubprocessRun (pip_user (executable w)) in
        let break := SubprocessRun (pip_break_system (executable w)) in
        match subprocess_run w (pip_user (executable w)) with
        | Returns _ => (not_installed_lines ++ user :: installed_lines, SystemExit 0)
        | Throws e1 =>
            if is_CalledProcessError e1 then
              match subprocess_run w (pip_break_system (executable w)) with
              | Returns _ =>
                  (not_installed_lines ++ user :: break :: installed_lines, SystemExit 0)
              | Throws e2 =>
                  if is_CalledProcessError e2 then
                    (not_installed_lines ++ user :: break ::
                       [ Print (nl +++ "ERROR: Failed to auto-install google-genai.");
                         Print (nl +++ "Please install manually with one of:");
                         Print "  pip install --user google-genai";
                         Print "  pip install --break-system-packages google-genai";
                         Print (nl +++ "Or use a virtual environment:");
                         Print "  python3 -m venv venv";
                         Print "  source venv/bin/activate";
                         Print "  pip install google-genai" ],
                     SystemExit 1)
                  else (not_installed_lines ++ [user; break], Raised e2)
              end
            else
              (not_installed_lines ++ user ::
                 [ Print (nl +++ "ERROR: Unexpected error during installation: "
                             +++ exn_str e1);
                   Print (nl +++ "Please install manually with: pip install --user google-genai") ],
               SystemExit 1)
        end
      else ([], Raised e)
  end.
Proof.
  unfold import_block. rewrite try_except_run. unfold invoke.
  destruct (import_genai w) as [[]|e]; [reflexivity|].
  destruct (is_ImportError e); [|reflexivity].
  cbv zeta. cbn [fst snd app].
  erewrite bind_ret by apply print_run.
  erewrite bind_ret by apply print_run.
  erewrite bind_ret by reflexivity.
  cbn [fst snd app]. rewrite try_except_run. unfold run_pip.
  destruct (subprocess_run w (pip_user (executable w))) as [[]|e1] eqn:E1.
  { erewrite bind_ret by (apply call_returns; exact E1).
    rewrite installed_rerun_run. reflexivity. }
  erewrite bind_raised by (apply call_throws; exact E1).
  destruct (is_CalledProcessError e1); [|reflexivity].
  rewrite try_except_run.
  destruct (subprocess_run w (pip_break_system (executable w))) as [[]|e2] eqn:E2.
  { erewrite bind_ret by (apply call_returns; exact E2).
    rewrite installed_rerun_run. reflexivity. }
  erewrite bind_raised by (apply call_throws; exact E2).
  destruct (is_CalledProcessError e2); reflexivity.
Qed.

Lemma generate_image_outcome (prompt : string) (w : World) :
  (exists r, outcome_of (generate_image prompt w) = Ret r)
  \/ outcome_of (generate_image prompt w) = SystemExit 1.
Proof.
  unfold outcome_of.
  destruct (getenv w KEY) as [k|] eqn:Hk.
  2:{ right. rewrite generate_image_no_key by (now left). reflexivity. }
  destruct (string_dec k EmptyString) as [->|Hne].
  { right. rewrite generate_image_no_key by (now right). reflexivity. }
  left. rewrite generate_image_handler, (generate_image_try_run prompt w Hk Hne).
  destruct (genai_Client w k) as [[]|e]; [|eexists; reflexivity].
  destruct (generate_content w model_id [prompt]) as [response|e]; [|eexists; reflexivity].
  destruct (parts response) as [ps|]; [|eexists; reflexivity].
  destruct (first_image ps) as [p|]; [|eexists; reflexivity].
  destruct (as_image p); eexists; reflexivity.
Qed.

Lemma save_image_outcome (image : Image) (output_dir : string) (w : World) :
  exists r, outcome_of (save_image image output_dir w) = Ret r.
Proof.
  pose proof (save_image_run image output_dir w) as E. cbv zeta in E.
  unfold outcome_of. rewrite E. clear E.
  destruct (has_save image);
    [ destruct (save_with_format image _ _) as [[]|e];
      [| destruct (is_TypeError e); [destruct (save_plain image _) as [[]|e']|]]
    | destruct (file_open w _) as [[]|e];
      [destruct (file_close w _) as [[]|e'];
       try destruct (file_write w _ image) as [[]|e'']|] ];
    eexists; reflexivity.
Qed.

(** The exit status of [main]: 0 on the path through a generated and a
    saved image, 1 everywhere else. *)
Lemma main_exit_status (argv : list string) (w : World) :
  (exists image filepath t t',
      generate_image (Str.join " " (skipn 1 argv)) w = (t, Ret (Some image))
      /\ save_image image "." w = (t', Ret (Some filepath))
      /\ main argv w = (t ++ t' ++ confirmation filepath, Ret tt))
  \/ outcome_of (main argv w) = SystemExit 1.
Proof.
  rewrite main_run. destruct (length argv <? 2); [now right|].
  cbv zeta. destruct (Str.falsy _); [now right|].
  pose proof (generate_image_outcome (Str.join " " (skipn 1 argv)) w) as Hg.
  destruct (generate_image _ w) as [t r]. unfold outcome_of in Hg. cbn [snd] in Hg.
  destruct Hg as [[[image|] ->] | ->]; [|now right|now right].
  destruct (save_image_outcome image "." w) as [r Hs].
  destruct (save_image image "." w) as [t' r'] eqn:Es.
  unfold outcome_of in Hs. cbn [snd] in Hs.
  subst r'. destruct r as [filepath|]; [|now right].
  left. exists image, filepath, t, t'. split; [reflexivity|split; [exact Es|reflexivity]].
Qed.




(** * Further properties of the script *)

(** ** The shape of a trace *)

Lemma filter_prints (f : event -> bool) (t : list event) :
  (forall s, f (Print s) = false) ->
  Forall (fun ev => is_print ev = true) t -> filter f t = [].
Proof.
  intros Hf. induction 1 as [|ev t Hev _ IH]; [reflexivity|].
  destruct ev; try discriminate Hev. cbn. now rewrite Hf.
Qed.

Lemma text_prints_all_prints (ps : list Part) :
  Forall (fun ev => is_print ev = true) (text_prints ps).
Proof.
  apply Forall_forall. intros ev H.
  apply text_prints_are_prints in H. destruct H as [s ->]. reflexivity.
Qed.

Lemma generation_failed_all_prints (e : exn) (w : World) :
  Forall (fun ev => is_print ev = true) (fst (generation_failed e w)).
Proof.
  destruct (generation_failed_run e w) as (t & -> & Ht). cbn [fst].
  constructor; [reflexivity|]. apply Forall_forall. intros ev H.
  destruct (Ht ev H) as [s ->]. reflexivity.
Qed.

(** With the credential set and the client built, the trace of
    [generate_image] starts with the request, the rest are prints, and
    the result is a returned value. *)
Lemma generate_image_after_client (prompt : string) (w : World) (k : string) :
  getenv w KEY = Some k -> k <> EmptyString -> genai_Client w k = Returns tt ->
  exists t r,
    generate_image prompt w = (request_head k prompt ++ t, Ret r)
    /\ Forall (fun ev => is_print ev = true) t.
Proof.
  intros Hk Hne Hc.
  rewrite generate_image_handler, (generate_image_try_run prompt w Hk Hne), Hc.
  destruct (generate_content w model_id [prompt]) as [response|e].
  2:{ do 2 eexists. split; [reflexivity|]. apply generation_failed_all_prints. }
  destruct (parts response) as [ps|].
  2:{ do 2 eexists. split; [reflexivity|]. apply generation_failed_all_prints. }
  destruct (first_image ps) as [p|].
  - destruct (as_image p) as [i|e]; cbn [result_of].
    + do 2 eexists. split; [reflexivity|].
      apply Forall_app. split; [apply text_prints_all_prints|repeat constructor].
    + do 2 eexists. rewrite <- !app_assoc. split; [reflexivity|].
      apply Forall_app. split; [apply text_prints_all_prints|].
      apply Forall_app. split; [repeat constructor|apply generation_failed_all_prints].
  - do 2 eexists. split; [reflexivity|].
    apply Forall_app. split; [apply text_prints_all_prints|repeat constructor].
Qed.

Lemma generate_image_client_throws (prompt : string) (w : World) (k : string) (e : exn) :
  getenv w KEY = Some k -> k <> EmptyString -> genai_Client w k = Throws e ->
  generate_image prompt w = (ClientNew k :: fst (generation_failed e w), Ret None).
Proof.
  intros Hk Hne Hc.
  now rewrite generate_image_handler, (generate_image_try_run prompt w Hk Hne), Hc.
Qed.

Lemma credential_cases (w : World) :
  no_credential w \/ exists k, getenv w KEY = Some k /\ k <> EmptyString.
Proof.
  unfold no_credential. destruct (getenv w KEY) as [k|]; [|now left; left].
  destruct (string_dec k EmptyString) as [->|Hne]; [now left; right|].
  right. now exists k.
Qed.

(** The three shapes of a trace of [generate_image]. *)
Lemma generate_image_shape (prompt : string) (w : World) :
  exists t r,
    Forall (fun ev => is_print ev = true) t
    /\ ((no_credential w /\ generate_image prompt w = (t, SystemExit 1))
        \/ exists k,
             getenv w KEY = Some k /\ k <> EmptyString
             /\ ((exists e, genai_Client w k = Throws e)
                 /\ generate_image prompt w = (ClientNew k :: t, Ret r)
                 \/ genai_Client w k = Returns tt
                    /\ generate_image prompt w = (request_head k prompt ++ t, Ret r))).
Proof.
  destruct (credential_cases w) as [Hno|(k & Hk & Hne)].
  - exists setup_instructions, None. split; [repeat constructor|].
    left. split; [exact Hno|]. now apply generate_image_no_key.
  - destruct (genai_Client w k) as [[]|e] eqn:Hc.
    + destruct (generate_image_after_client prompt w Hk Hne Hc) as (t & r & E & Ht).
      exists t, r. split; [exact Ht|]. right. exists k. auto.
    + exists (fst (generation_failed e w)), None.
      split; [apply generation_failed_all_prints|]. right. exists k.
      split; [exact Hk|]. split; [exact Hne|]. left. split; [now exists e|].
      now apply generate_image_client_throws.
Qed.

Lemma main_without_credential (argv : list string) (w : World) :
  no_credential w ->
  main argv w = (usage, SystemExit 1)
  \/ main argv w = ([Print "ERROR: Prompt cannot be empty."], SystemExit 1)
  \/ main argv w = (setup_instructions, SystemExit 1).
Proof.
  intros Hno. rewrite main_run. destruct (length argv <? 2); [now left|].
  cbv zeta. destruct (Str.falsy _); [now right; left|].
  rewrite generate_image_no_key by exact Hno. now right; right.
Qed.

(** [main] on an argument vector that passes both checks. *)
Lemma main_valid (argv : list string) (w : World) :
  2 <= length argv ->
  whitespace_only (Str.join " " (skipn 1 argv)) = false ->
  main argv w =
  match generate_image (Str.join " " (skipn 1 argv)) w with
  | (t, Ret (Some image)) =>
      match save_image image "." w with
      | (t', Ret (Some filepath)) => (t ++ t' ++ confirmation filepath, Ret tt)
      | (t', Ret None) => (t ++ t', SystemExit 1)
      | (t', Raised e) => (t ++ t', Raised e)
      | (t', SystemExit c) => (t ++ t', SystemExit c)
      end
  | (t, Ret None) => (t, SystemExit 1)
  | (t, Raised e) => (t, Raised e)
  | (t, SystemExit c) => (t, SystemExit c)
  end.
Proof.
  intros Hlen Hblank. rewrite main_run.
  apply Nat.ltb_ge in Hlen. rewrite Hlen. cbv zeta.
  destruct (Str.strip _) eqn:Es; [|reflexivity].
  apply strip_empty_iff in Es. congruence.
Qed.

(** ** The credential, further *)

(** X1. A credential that is set to the empty string is treated like a
    missing one: [generate_image] prints the setup instructions and
    leaves through [sys.exit(1)], and no run of [main] builds the client
    or sends a request. *)
Theorem empty_credential_is_missing :
  forall (prompt : string) (argv : list string) (w : World),
    getenv w KEY = Some EmptyString ->
    validate_api_key w = (setup_instructions, SystemExit 1)
    /\ generate_image prompt w = (setup_instructions, SystemExit 1)
    /\ outcome_of (main argv w) = SystemExit 1
    /\ no_network (trace (main argv w)).
Proof.
  intros prompt argv w Hk.
  assert (Hno : no_credential w) by now right.
  split; [now apply validate_missing|].
  split; [now apply generate_image_no_key|].
  destruct (main_without_credential argv Hno) as [E|[E|E]]; rewrite E;
    (split; [reflexivity|]); intros ev H; cbn in H; in_cases H; subst ev; reflexivity.
Qed.

Lemma empty_credential_witness :
  getenv Scenario.empty_key KEY = Some EmptyString
  /\ generate_image "a cat" Scenario.empty_key = (setup_instructions, SystemExit 1).
Proof.
  split; [reflexivity|].
  exact (proj1 (proj2 (empty_credential_is_missing "a cat" [] Scenario.empty_key eq_refl))).
Defined.

(** X2. Any non-empty credential passes the check, white space
    included, nothing is printed for it, and it is handed to the client
    as it is: the first thing [generate_image] does is to build the
    client with exactly the value of the environment variable, and no
    client is ever built with another key. *)
Theorem credential_reaches_client_verbatim :
  forall (prompt : string) (w : World) (k : string),
    getenv w KEY = Some k -> k <> EmptyString ->
    validate_api_key w = ([], Ret k)
    /\ (exists t, trace (generate_image prompt w) = ClientNew k :: t)
    /\ (forall k', In (ClientNew k') (trace (generate_image prompt w)) -> k' = k).
Proof.
  intros prompt w k Hk Hne. split; [now apply validate_present|]. split.
  - unfold trace. destruct (genai_Client w k) as [[]|e] eqn:Hc.
    + destruct (generate_image_after_client prompt w Hk Hne Hc) as (t & r & -> & _).
      eexists. reflexivity.
    + rewrite (generate_image_client_throws prompt w Hk Hne Hc). eexists. reflexivity.
  - intros k' H. apply generate_image_events in H.
    destruct H as [(s & H)|[(k'' & H & Hk'' & _)|H]]; try discriminate.
    injection H as ->. congruence.
Qed.

Lemma credential_verbatim_witness :
  getenv Scenario.blank_key KEY = Some " "
  /\ validate_api_key Scenario.blank_key = ([], Ret " ").
Proof.
  split; [reflexivity|].
  refine (proj1 (@credential_reaches_client_verbatim "a cat" Scenario.blank_key " " eq_refl _)).
  discriminate.
Defined.

(** ** The prompt on the console *)

Lemma take_short (n : nat) (s : string) :
  String.length s <= n -> Str.take n s = s.
Proof.
  unfold Str.take. revert n. induction s as [|c s IH]; intros n H.
  - destruct n; reflexivity.
  - destruct n; cbn in *; [lia|]. rewrite IH by lia. reflexivity.
Qed.

Lemma take_long (n : nat) (s : string) :
  n <= String.length s ->
  String.length (Str.take n s) = n /\ prefix (Str.take n s) s = true.
Proof.
  unfold Str.take. revert n. induction s as [|c s IH]; intros n H.
  - destruct n; cbn in *; [split; reflexivity | lia].
  - destruct n; cbn in *; [split; reflexivity|].
    destruct (IH n) as [Hl Hp]; [lia|]. rewrite Hl.
    split; [reflexivity|]. destruct (ascii_dec c c); [exact Hp|contradiction].
Qed.

(** X3. Once the client is built, [generate_image] echoes the prompt:
    whole when it has at most 100 characters, and otherwise its first
    100 characters followed by three dots.  The request itself always
    carries the whole prompt. *)
Theorem prompt_echo_is_truncated :
  forall (prompt : string) (w : World) (k : string),
    getenv w KEY = Some k -> k <> EmptyString -> genai_Client w k = Returns tt ->
    let t := trace (generate_image prompt w) in
    (String.length prompt <= 100 -> In (Print ("Prompt: " +++ prompt +++ nl)) t)
    /\ (100 < String.length prompt ->
        exists shown,
          String.length shown = 100 /\ prefix shown prompt = true
          /\ In (Print ("Prompt: " +++ shown +++ "..." +++ nl)) t)
    /\ In (GenerateContent model_id [prompt]) t.
Proof.
  intros prompt w k Hk Hne Hc t. subst t. unfold trace.
  destruct (generate_image_after_client prompt w Hk Hne Hc) as (t & r & -> & _).
  cbn [fst]. unfold request_head. split; [|split].
  - intros Hlen. apply in_or_app. left.
    rewrite take_short by exact Hlen.
    apply Nat.ltb_ge in Hlen. rewrite Hlen. cbn. auto.
  - intros Hlen. exists (Str.take 100 prompt).
    destruct (@take_long 100 prompt) as [Hl Hp]; [lia|].
    split; [exact Hl|]. split; [exact Hp|].
    apply in_or_app. left. apply Nat.ltb_lt in Hlen. rewrite Hlen. cbn. auto.
  - apply in_or_app. left. cbn. auto.
Qed.

Lemma prompt_echo_witness :
  100 < String.length Scenario.long_prompt
  /\ In (GenerateContent model_id [Scenario.long_prompt])
        (trace (generate_image Scenario.long_prompt (Sample.world []))).
Proof.
  split; [cbn; repeat constructor|].
  refine (proj2 (proj2 (@prompt_echo_is_truncated
                          Scenario.long_prompt (Sample.world []) "secret" eq_refl _ eq_refl))).
  discriminate.
Defined.

(** ** Exceptions of the library calls *)

(** X4. Every [Exception] raised by a call into the client library, the
    image object or the file system is caught where it happens: whatever
    the client constructor, the request, the parts, [as_image],
    [image.save], [open], [write] and closing the file do,
    [generate_image] returns or leaves through [sys.exit(1)], and it
    exits exactly when the credential is unset or empty; [save_image]
    returns; and [main] returns normally or leaves through
    [sys.exit(1)].  (A failing [print], and signals that are not
    [Exception]s, are not part of this model.) *)
Theorem library_exceptions_are_caught :
  forall (argv : list string) (prompt : string) (image : Image)
         (output_dir : string) (w : World),
    ((exists r, outcome_of (generate_image prompt w) = Ret r)
     \/ outcome_of (generate_image prompt w) = SystemExit 1)
    /\ (outcome_of (generate_image prompt w) = SystemExit 1 <-> no_credential w)
    /\ (exists r, outcome_of (save_image image output_dir w) = Ret r)
    /\ (outcome_of (main argv w) = Ret tt \/ outcome_of (main argv w) = SystemExit 1).
Proof.
  intros argv prompt image output_dir w. split; [apply generate_image_outcome|]. split.
  - destruct (generate_image_shape prompt w)
      as (t & r & _ & [[Hno E]|(k & Hk & Hne & [[_ E]|[_ E]])]); rewrite E;
      unfold outcome_of; cbn [snd]; split; intros H; try discriminate H; auto;
      exfalso; destruct H as [H|H]; rewrite Hk in H; try discriminate H;
      injection H as ->; now apply Hne.
  - split; [apply save_image_outcome|].
    destruct (main_exit_status argv w) as [(im & filepath & t & t' & _ & _ & ->)|H];
      [now left | now right].
Qed.

(** ** Failures on the way to the image *)

Lemma generation_failed_blocks (e : exn) (w : World) :
  generation_failed e w =
  (error_line e :: flat_map guidance_block (guidance_for (Str.lower (exn_str e))),
   Ret None).
Proof.
  unfold generation_failed. erewrite bind_ret by apply print_run.
  unfold guidance_for, credential_words, throttling_words, connectivity_words.
  destruct (_ || _); [reflexivity|].
  destruct (_ || _); [reflexivity|].
  destruct (_ || _); reflexivity.
Qed.

(** X5. When building the client raises, nothing is sent: the trace is
    the client construction, the error line and the guidance for the
    message; "Generating image" is not printed, no request is made,
    [generate_image] returns [None] and a run of [main] that got this
    far ends with exit status 1. *)
Theorem client_failure_sends_nothing :
  forall (argv : list string) (w : World) (k : string) (e : exn),
    getenv w KEY = Some k -> k <> EmptyString -> genai_Client w k = Throws e ->
    let prompt := Str.join " " (skipn 1 argv) in
    let t := ClientNew k :: error_line e
               :: flat_map guidance_block (guidance_for (Str.lower (exn_str e))) in
    generate_image prompt w = (t, Ret None)
    /\ count is_request t = 0
    /\ ~ In (Print "Generating image with Nano Banana Pro...") t
    /\ (2 <= length argv -> whitespace_only prompt = false ->
        main argv w = (t, SystemExit 1)).
Proof.
  intros argv w k e Hk Hne Hc prompt t.
  assert (E : generate_image prompt w = (t, Ret None)).
  { rewrite (generate_image_client_throws prompt w Hk Hne Hc), generation_failed_blocks.
    reflexivity. }
  split; [exact E|]. subst t. unfold guidance_for. split; [|split].
  - destruct (credential_words _); [reflexivity|].
    destruct (throttling_words _); [reflexivity|].
    destruct (connectivity_words _); reflexivity.
  - destruct (credential_words _);
      [|destruct (throttling_words _); [|destruct (connectivity_words _)]];
      cbn; intros H; in_cases H; discriminate H.
  - intros Hlen Hblank. rewrite (main_valid argv w Hlen Hblank).
    fold prompt. now rewrite E.
Qed.

Lemma client_failure_witness :
  genai_Client Scenario.client_fails "secret"
    = Throws (mkExn OtherException "Invalid API Key format")
  /\ main Sample.argv_apple Scenario.client_fails
     = (ClientNew "secret"
          :: Print "ERROR: Failed to generate image: Invalid API Key format"
          :: guidance_block Credential,
        SystemExit 1).
Proof.
  split; [reflexivity|].
  refine (proj2 (proj2 (proj2 (@client_failure_sends_nothing
            Sample.argv_apple Scenario.client_fails "secret" _ eq_refl _ eq_refl))) _ eq_refl).
  - discriminate.
  - cbn. repeat constructor.
Defined.

(** X6. A response whose [parts] is [None] cannot be iterated: the
    [TypeError] is caught like any other error, its message matches no
    guidance, [generate_image] returns [None], and a run of [main] that
    got this far ends with exit status 1. *)
Theorem response_without_parts :
  forall (argv : list string) (w : World) (k : string) (response : Response),
    let prompt := Str.join " " (skipn 1 argv) in
    getenv w KEY = Some k -> k <> EmptyString -> genai_Client w k = Returns tt ->
    generate_content w model_id [prompt] = Returns response ->
    parts response = None ->
    let t := request_head k prompt
               ++ [Print "ERROR: Failed to generate image: 'NoneType' object is not iterable"] in
    generate_image prompt w = (t, Ret None)
    /\ (2 <= length argv -> whitespace_only prompt = false ->
        main argv w = (t, SystemExit 1)).
Proof.
  intros argv w k response prompt Hk Hne Hc Hg Hp t.
  assert (E : generate_image prompt w = (t, Ret None)).
  { rewrite generate_image_handler, (generate_image_try_run prompt w Hk Hne), Hc, Hg, Hp.
    reflexivity. }
  split; [exact E|].
  intros Hlen Hblank. rewrite (main_valid argv w Hlen Hblank). fold prompt. now rewrite E.
Qed.

Lemma response_without_parts_witness :
  parts (mkResponse None) = None
  /\ generate_image "A red apple" Scenario.parts_none
     = (request_head "secret" "A red apple"
          ++ [Print "ERROR: Failed to generate image: 'NoneType' object is not iterable"],
        Ret None).
Proof.
  split; [reflexivity|].
  refine (proj1 (@response_without_parts Sample.argv_apple Scenario.parts_none
                   "secret" (mkResponse None) eq_refl _ eq_refl eq_refl eq_refl)).
  discriminate.
Defined.

(** X7. "Image generated successfully!" is printed before the part is
    turned into an image.  When [as_image] then gives [None], or raises,
    that line is in the trace and yet [generate_image] returns [None];
    [main] ends with exit status 1 and nothing is written. *)
Theorem success_line_without_image :
  forall (argv : list string) (w : World) (k : string) (ps : list Part) (p : Part),
    let prompt := Str.join " " (skipn 1 argv) in
    iterates w prompt k ps ->
    first_image ps = Some p ->
    as_image p = Returns None \/ (exists e, as_image p = Throws e) ->
    In (Print "Image generated successfully!") (trace (generate_image prompt w))
    /\ outcome_of (generate_image prompt w) = Ret None
    /\ (2 <= length argv -> whitespace_only prompt = false ->
        outcome_of (main argv w) = SystemExit 1
        /\ no_save (trace (main argv w))).
Proof.
  intros argv w k ps p prompt Hit Hf Ha.
  pose proof (generate_image_iterated Hit) as E. rewrite Hf in E. cbv zeta in E.
  assert (Hres : exists t, generate_image prompt w = (t, Ret None)
                   /\ In (Print "Image generated successfully!") t
                   /\ no_save t).
  { assert (Hns : no_save (fst (generate_image prompt w))).
    { intros ev Hin. apply (generate_image_events prompt w) in Hin.
      destruct Hin as [(s & ->)|[(k' & -> & _)| ->]]; reflexivity. }
    assert (Hin : forall t',
              In (Print "Image generated successfully!")
                 ((request_head k prompt ++ text_prints (before_image ps)
                     ++ [Print "Image generated successfully!"]) ++ t')).
    { intros t'. apply in_or_app. left. apply in_or_app. right.
      apply in_or_app. right. cbn. auto. }
    destruct Ha as [Ha|(e & Ha)]; rewrite Ha in E; rewrite E in Hns; cbn [fst] in Hns;
      eexists; (split; [exact E|]); (split; [|exact Hns]).
    - specialize (Hin []). now rewrite app_nil_r in Hin.
    - apply Hin. }
  destruct Hres as (t & Et & Hin & Hns). unfold trace, outcome_of. rewrite Et. cbn [fst snd].
  split; [exact Hin|]. split; [reflexivity|].
  intros Hlen Hblank. rewrite (main_valid argv w Hlen Hblank). fold prompt. rewrite Et.
  cbn [fst snd]. split; [reflexivity|exact Hns].
Qed.

Lemma success_line_without_image_witness :
  iterates Scenario.world_not_an_image "A red apple" "secret" [Scenario.not_an_image]
  /\ main Sample.argv_apple Scenario.world_not_an_image
     = (request_head "secret" "A red apple" ++ [Print "Image generated successfully!"],
        SystemExit 1)
  /\ outcome_of (main Sample.argv_apple Scenario.world_not_an_image) = SystemExit 1.
Proof.
  assert (H : iterates Scenario.world_not_an_image "A red apple" "secret"
                [Scenario.not_an_image]).
  { split; [reflexivity|]. split; [discriminate|]. split; [reflexivity|].
    eexists. split; reflexivity. }
  split; [exact H|]. split; [reflexivity|].
  refine (proj1 (proj2 (proj2 (@success_line_without_image
            Sample.argv_apple Scenario.world_not_an_image "secret"
            [Scenario.not_an_image] Scenario.not_an_image H eq_refl (or_introl eq_refl)))
          _ eq_refl)).
  cbn. repeat constructor.
Defined.

(** ** Order and number of the effects *)

Lemma count_app (f : event -> bool) (t t' : list event) :
  count f (t ++ t') = count f t + count f t'.
Proof. unfold count. now rewrite filter_app, length_app. Qed.

Lemma count_zero (f : event -> bool) (t : list event) :
  (forall ev, In ev t -> f ev = false) -> count f t = 0.
Proof.
  unfold count. induction t as [|ev t IH]; intros H; [reflexivity|].
  cbn. rewrite (H ev) by now left. apply IH. intros ev' Hin. apply H. now right.
Qed.

Lemma count_prints (f : event -> bool) (t : list event) :
  (forall s, f (Print s) = false) ->
  Forall (fun ev => is_print ev = true) t -> count f t = 0.
Proof. intros Hf Ht. unfold count. now rewrite filter_prints. Qed.

Lemma generate_image_no_save (prompt : string) (w : World) :
  no_save (trace (generate_image prompt w)).
Proof.
  intros ev Hin. apply generate_image_events in Hin.
  destruct Hin as [(s & ->)|[(k' & -> & _)| ->]]; reflexivity.
Qed.

Lemma save_image_no_network (image : Image) (output_dir : string) (w : World) :
  forall ev, In ev (trace (save_image image output_dir w)) ->
             is_network ev = false /\ is_client ev = false /\ is_request ev = false
             /\ is_subprocess ev = false.
Proof.
  intros ev Hin. apply save_image_events in Hin.
  destruct Hin as [(s & ->)|H]; [repeat split|].
  destruct ev; try discriminate H; repeat split.
Qed.

(** When [generate_image] returns an image, the request was made. *)
Lemma image_needs_request (prompt : string) (w : World) (image : Image) :
  outcome_of (generate_image prompt w) = Ret (Some image) ->
  In (GenerateContent model_id [prompt]) (trace (generate_image prompt w)).
Proof.
  unfold outcome_of, trace.
  destruct (credential_cases w) as [Hno|(k & Hk & Hne)].
  { rewrite generate_image_no_key by exact Hno. discriminate. }
  destruct (genai_Client w k) as [[]|e] eqn:Hc.
  - destruct (generate_image_after_client prompt w Hk Hne Hc) as (t & r & -> & _).
    intros _. cbn [fst]. apply in_or_app. left. cbn. auto.
  - rewrite (generate_image_client_throws prompt w Hk Hne Hc). discriminate.
Qed.

(** X8. In every run of [main] the work on the network comes before the
    work on the file system: the trace splits into a first part without
    any save event and a second part without client construction or
    request.  Whenever something is written, [generate_image] has
    returned an image and the request is in the first part. *)
Theorem network_precedes_saving :
  forall (argv : list string) (w : World),
    let prompt := Str.join " " (skipn 1 argv) in
    exists t1 t2,
      trace (main argv w) = t1 ++ t2
      /\ no_save t1 /\ no_network t2
      /\ ((exists ev, In ev (trace (main argv w)) /\ is_save ev = true) ->
          (exists image, outcome_of (generate_image prompt w) = Ret (Some image))
          /\ In (GenerateContent model_id [prompt]) t1).
Proof.
  intros argv w prompt.
  assert (Hprints : forall t, Forall (fun ev => is_print ev = true) t -> no_save t).
  { intros t Ht ev Hin. rewrite Forall_forall in Ht. specialize (Ht ev Hin).
    destruct ev; try discriminate Ht. reflexivity. }
  assert (Hfin : forall t, no_save t ->
            exists t1 t2,
              t = t1 ++ t2 /\ no_save t1 /\ no_network t2
              /\ ((exists ev, In ev t /\ is_save ev = true) ->
                  (exists image, outcome_of (generate_image prompt w) = Ret (Some image))
                  /\ In (GenerateContent model_id [prompt]) t1)).
  { intros t Ht. exists t, []. split; [now rewrite app_nil_r|].
    split; [exact Ht|]. split; [intros ev []|].
    intros (ev & Hin & Hs). rewrite (Ht ev Hin) in Hs. discriminate. }
  unfold trace. rewrite main_run.
  destruct (length argv <? 2).
  { apply Hfin, Hprints. repeat constructor. }
  cbv zeta. fold prompt. destruct (Str.falsy _).
  { apply Hfin, Hprints. repeat constructor. }
  pose proof (generate_image_no_save prompt w) as Hg.
  pose proof (@image_needs_request prompt w) as Hreq.
  unfold trace, outcome_of in *.
  destruct (generate_image prompt w) as [t [[image|]|e|c]]; cbn [fst snd] in *;
    try (apply Hfin; exact Hg).
  pose proof (save_image_no_network image "." w) as Hs. unfold trace in Hs.
  assert (Hconf : forall filepath ev, In ev (confirmation filepath) -> is_network ev = false).
  { intros filepath ev Hin. cbn in Hin. in_cases Hin; subst ev; reflexivity. }
  assert (Hok : (exists image0 : Image, Ret (Some image) = Ret (Some image0))
                /\ In (GenerateContent model_id [prompt]) t).
  { split; [now exists image|]. now apply (Hreq image). }
  destruct (save_image image "." w) as [t' [[filepath|]|e|c]]; cbn [fst] in *.
  - exists t, (t' ++ confirmation filepath). split; [reflexivity|].
    split; [exact Hg|]. split; [|intros _; exact Hok].
    intros ev Hin. apply in_app_or in Hin. destruct Hin as [Hin|Hin];
      [apply (Hs ev Hin) | apply (Hconf filepath ev Hin)].
  - exists t, t'. split; [reflexivity|]. split; [exact Hg|].
    split; [|intros _; exact Hok]. intros ev Hin. apply (Hs ev Hin).
  - exists t, t'. split; [reflexivity|]. split; [exact Hg|].
    split; [|intros _; exact Hok]. intros ev Hin. apply (Hs ev Hin).
  - exists t, t'. split; [reflexivity|]. split; [exact Hg|].
    split; [|intros _; exact Hok]. intros ev Hin. apply (Hs ev Hin).
Qed.

Lemma script_when_import_fails (argv : list string) (w : World) (e : exn) :
  import_genai w = Throws e -> script argv w = import_block w.
Proof.
  intros He. unfold script. rewrite bind_run, import_block_run, He.
  destruct (is_ImportError e); [|reflexivity]. cbv zeta.
  destruct (subprocess_run w (pip_user (executable w))) as [[]|e1]; [reflexivity|].
  destruct (is_CalledProcessError e1); [|reflexivity].
  destruct (subprocess_run w (pip_break_system (executable w))) as [[]|e2]; [reflexivity|].
  destruct (is_CalledProcessError e2); reflexivity.
Qed.

Lemma import_block_events (w : World) (ev : event) :
  In ev (trace (import_block w)) ->
  (exists s, ev = Print s)
  \/ ev = SubprocessRun (pip_user (executable w))
  \/ ev = SubprocessRun (pip_break_system (executable w)).
Proof.
  unfold trace. rewrite import_block_run.
  destruct (import_genai w) as [[]|e]; [intros []|].
  destruct (is_ImportError e); [|intros []]. cbv zeta.
  destruct (subprocess_run w (pip_user (executable w))) as [[]|e1].
  { cbn. intros H. in_cases H; subst ev; eauto. }
  destruct (is_CalledProcessError e1).
  2:{ cbn. intros H. in_cases H; subst ev; eauto. }
  destruct (subprocess_run w (pip_break_system (executable w))) as [[]|e2].
  { cbn. intros H. in_cases H; subst ev; eauto. }
  destruct (is_CalledProcessError e2); cbn; intros H; in_cases H; subst ev; eauto.
Qed.

(** X9. There is no retry: a run of the script builds the client at most
    once and sends at most one generation request. *)
Theorem single_client_single_request :
  forall (argv : list string) (w : World),
    count is_client (trace (script argv w)) <= 1
    /\ count is_request (trace (script argv w)) <= 1.
Proof.
  intros argv w.
  destruct (import_genai w) as [[]|e] eqn:He.
  2:{ rewrite (script_when_import_fails argv w He).
      rewrite !count_zero; [lia| |];
        intros ev Hin; apply import_block_events in Hin;
        destruct Hin as [(s & ->)|[-> | ->]]; reflexivity. }
  rewrite script_after_import by exact He.
  assert (Hgen : forall prompt,
            count is_client (fst (generate_image prompt w)) <= 1
            /\ count is_request (fst (generate_image prompt w)) <= 1).
  { intros prompt.
    destruct (generate_image_shape prompt w)
      as (t & r & Ht & [[_ E]|(k & _ & _ & [[_ E]|[_ E]])]); rewrite E; cbn [fst].
    - rewrite (count_prints is_client), (count_prints is_request);
        [lia | reflexivity | exact Ht | reflexivity | exact Ht].
    - change (ClientNew k :: t) with ([ClientNew k] ++ t).
      rewrite !count_app, (@count_prints is_client t), (@count_prints is_request t);
        [unfold count; cbn; lia | reflexivity | exact Ht | reflexivity | exact Ht].
    - rewrite !count_app, (@count_prints is_client t), (@count_prints is_request t);
        [unfold count; cbn; lia | reflexivity | exact Ht | reflexivity | exact Ht]. }
  assert (Hsave : forall image,
            count is_client (fst (save_image image "." w)) = 0
            /\ count is_request (fst (save_image image "." w)) = 0).
  { intros image. split; apply count_zero; intros ev Hin;
      apply (save_image_no_network image "." w) in Hin; tauto. }
  unfold trace. rewrite main_run.
  destruct (length argv <? 2); [cbn; lia|].
  cbv zeta. destruct (Str.falsy _); [cbn; lia|].
  specialize (Hgen (Str.join " " (skipn 1 argv))).
  destruct (generate_image _ w) as [t [[image|]|e|c]]; cbn [fst] in *; try exact Hgen.
  specialize (Hsave image).
  destruct (save_image image "." w) as [t' [[filepath|]|e|c]]; cbn [fst] in *;
    rewrite !count_app; destruct Hgen as [H1 H2]; destruct Hsave as [H3 H4];
    rewrite H3, H4; cbn; lia.
Qed.

(** ** The import block, further *)

(** X10. When the client library imports, the script is [main]: it
    never runs a subprocess, so [pip] is not invoked. *)
Theorem import_success_never_runs_pip :
  forall (argv : list string) (w : World),
    import_genai w = Returns tt ->
    script argv w = main argv w
    /\ count is_subprocess (trace (script argv w)) = 0.
Proof.
  intros argv w He. rewrite script_after_import by exact He.
  split; [reflexivity|]. apply count_zero. intros ev Hin.
  apply main_events in Hin.
  destruct Hin as [(s & ->)|[(k & -> & _)|[-> |H]]]; try reflexivity.
  destruct ev; try discriminate H; reflexivity.
Qed.

Lemma import_success_witness :
  import_genai (Sample.world []) = Returns tt
  /\ count is_subprocess (trace (script Sample.argv_apple (Sample.world []))) = 0.
Proof.
  split; [reflexivity|].
  exact (proj2 (import_success_never_runs_pip Sample.argv_apple (Sample.world []) eq_refl)).
Defined.

(** X11. When the import fails with [ImportError], the script announces
    the installation and runs [pip install --user] with the running
    interpreter.  It runs [pip] once or twice, never more; the second
    run is the one with [--break-system-packages], and it happens
    exactly when the first ended in [CalledProcessError].  [main] is
    not reached: the outcome does not depend on the arguments. *)
Theorem pip_attempts_in_order :
  forall (argv : list string) (w : World) (e : exn),
    import_genai w = Throws e -> is_ImportError e = true ->
    let user := SubprocessRun [executable w; "-m"; "pip"; "install"; "--user"; "google-genai"] in
    let break := SubprocessRun [executable w; "-m"; "pip"; "install";
                                "--break-system-packages"; "google-genai"] in
    let runs := filter is_subprocess (trace (script argv w)) in
    (exists t, trace (script argv w) = not_installed_lines ++ user :: t)
    /\ (runs = [user] \/ runs = [user; break])
    /\ (runs = [user; break] <->
        exists e1, subprocess_run w (pip_user (executable w)) = Throws e1
                   /\ is_CalledProcessError e1 = true)
    /\ script argv w = script [] w.
Proof.
  intros argv w e He Hi user break runs. subst runs.
  rewrite (script_when_import_fails argv w He), (script_when_import_fails [] w He).
  unfold trace. rewrite import_block_run, He, Hi. cbv zeta.
  fold (pip_user (executable w)) (pip_break_system (executable w)) in *.
  destruct (subprocess_run w (pip_user (executable w))) as [[]|e1].
  { cbn [fst]. split; [eexists; reflexivity|]. split; [now left|].
    split; [|reflexivity]. split; [discriminate|]. intros (e1 & H & _). discriminate. }
  destruct (is_CalledProcessError e1) eqn:C1.
  2:{ cbn [fst]. split; [eexists; reflexivity|]. split; [now left|].
      split; [|reflexivity]. split; [discriminate|].
      intros (e1' & H & Hc). congruence. }
  destruct (subprocess_run w (pip_break_system (executable w))) as [[]|e2].
  { cbn [fst]. split; [eexists; reflexivity|]. split; [now right|].
    split; [|reflexivity]. split; [eauto|reflexivity]. }
  destruct (is_CalledProcessError e2); cbn [fst];
    (split; [eexists; reflexivity|]); (split; [now right|]);
    (split; [|reflexivity]); (split; [eauto|reflexivity]).
Qed.

Lemma pip_attempts_witness :
  is_ImportError (mkExn ImportError "No module named 'google'") = true
  /\ filter is_subprocess (trace (script Sample.argv_apple Scenario.pip_user_fails))
     = [ SubprocessRun ["/usr/bin/python3"; "-m"; "pip"; "install"; "--user"; "google-genai"];
         SubprocessRun ["/usr/bin/python3"; "-m"; "pip"; "install";
                        "--break-system-packages"; "google-genai"] ].
Proof.
  split; [reflexivity|].
  apply (proj2 (proj2 (@pip_attempts_in_order Sample.argv_apple Scenario.pip_user_fails
                          _ eq_refl eq_refl))).
  eexists. split; reflexivity.
Defined.

(** X12. What the import block does with the exceptions it is not
    written for.  An import that fails with anything but [ImportError]
    is not handled: the exception leaves the script with nothing
    printed.  A first [pip] run that ends in anything but
    [CalledProcessError] is reported as an unexpected error, with its
    message, and the script exits with status 1 without a second run.
    A second [pip] run that ends in anything but [CalledProcessError]
    is not handled either: the exception leaves the script, and the
    manual installation hints are not printed.  *)
Theorem installer_exceptions :
  forall (argv : list string) (w : World) (e : exn),
    import_genai w = Throws e ->
    let user := SubprocessRun (pip_user (executable w)) in
    let break := SubprocessRun (pip_break_system (executable w)) in
    (is_ImportError e = false -> script argv w = ([], Raised e))
    /\ (is_ImportError e = true ->
        forall e1, subprocess_run w (pip_user (executable w)) = Throws e1 ->
        (is_CalledProcessError e1 = false ->
         script argv w =
         (not_installed_lines ++
            [ user;
              Print (nl +++ "ERROR: Unexpected error during installation: " +++ exn_str e1);
              Print (nl +++ "Please install manually with: pip install --user google-genai") ],
          SystemExit 1))
        /\ (is_CalledProcessError e1 = true ->
            forall e2, subprocess_run w (pip_break_system (executable w)) = Throws e2 ->
            is_CalledProcessError e2 = false ->
            script argv w = (not_installed_lines ++ [user; break], Raised e2)
            /\ exit_status (outcome_of (script argv w)) = 1%Z)).
Proof.
  intros argv w e He user break.
  rewrite (script_when_import_fails argv w He), import_block_run, He. split.
  - now intros ->.
  - intros -> e1 H1. cbv zeta. rewrite H1. split.
    + now intros ->.
    + intros -> e2 H2 C2. rewrite H2, C2. split; reflexivity.
Qed.

Lemma installer_exceptions_witness :
  import_genai Scenario.pip_cannot_run = Throws (mkExn ImportError "No module named 'google'")
  /\ script Sample.argv_apple Scenario.pip_cannot_run =
     (not_installed_lines ++
        [ SubprocessRun (pip_user "/usr/bin/python3");
          Print (nl +++ "ERROR: Unexpected error during installation: [Errno 13] Permission denied");
          Print (nl +++ "Please install manually with: pip install --user google-genai") ],
      SystemExit 1).
Proof.
  split; [reflexivity|].
  exact (proj1 (proj2 (@installer_exceptions Sample.argv_apple Scenario.pip_cannot_run
                         _ eq_refl) eq_refl _ eq_refl) eq_refl).
Defined.

(** ** One file per second *)

Lemma digit_inj (x y : Z) :
  (0 <= x < 10)%Z -> (0 <= y < 10)%Z ->
  Datetime.digit x = Datetime.digit y -> x = y.
Proof.
  intros Hx Hy.
  assert (Cx : (x = 0 \/ x = 1 \/ x = 2 \/ x = 3 \/ x = 4 \/
                x = 5 \/ x = 6 \/ x = 7 \/ x = 8 \/ x = 9)%Z) by lia.
  assert (Cy : (y = 0 \/ y = 1 \/ y = 2 \/ y = 3 \/ y = 4 \/
                y = 5 \/ y = 6 \/ y = 7 \/ y = 8 \/ y = 9)%Z) by lia.
  clear Hx Hy.
  repeat (destruct Cx as [->|Cx]); try subst x;
    repeat (destruct Cy as [->|Cy]); try subst y;
    intros H; solve [reflexivity | discriminate H].
Qed.

Lemma fmt2_inj (n m : Z) :
  (0 <= n < 100)%Z -> (0 <= m < 100)%Z ->
  Datetime.fmt2 n = Datetime.fmt2 m -> n = m.
Proof.
  intros Hn Hm H. unfold Datetime.fmt2 in H. injection H as H1 H2.
  apply digit_inj in H1;
    [| split; [apply Z.div_pos; lia | apply Z.div_lt_upper_bound; lia]
     | split; [apply Z.div_pos; lia | apply Z.div_lt_upper_bound; lia] ].
  apply digit_inj in H2; [| apply Z.mod_pos_bound; lia | apply Z.mod_pos_bound; lia].
  rewrite (Z.div_mod n 10), (Z.div_mod m 10) by lia. now rewrite H1, H2.
Qed.

Lemma filename_inj (d1 d2 : datetime) :
  Datetime.wf d1 -> Datetime.wf d2 -> filename_at d1 = filename_at d2 -> d1 = d2.
Proof.
  intros (Hy1 & Hm1 & Hd1 & Hh1 & Hn1 & Hs1) (Hy2 & Hm2 & Hd2 & Hh2 & Hn2 & Hs2) H.
  destruct d1 as [y1 m1 a1 h1 n1 s1], d2 as [y2 m2 a2 h2 n2 s2].
  cbn [Datetime.year Datetime.month Datetime.day
       Datetime.hour Datetime.minute Datetime.second] in *.
  unfold filename_at, Datetime.strftime_Ymd_HMS, Datetime.fmt4 in H.
  cbn [Datetime.year Datetime.month Datetime.day
       Datetime.hour Datetime.minute Datetime.second] in H.
  assert (Hparts :
    Datetime.fmt2 (y1 / 100) = Datetime.fmt2 (y2 / 100)
    /\ Datetime.fmt2 (y1 mod 100) = Datetime.fmt2 (y2 mod 100)
    /\ Datetime.fmt2 m1 = Datetime.fmt2 m2 /\ Datetime.fmt2 a1 = Datetime.fmt2 a2
    /\ Datetime.fmt2 h1 = Datetime.fmt2 h2 /\ Datetime.fmt2 n1 = Datetime.fmt2 n2
    /\ Datetime.fmt2 s1 = Datetime.fmt2 s2).
  { unfold Datetime.fmt2 in *. cbn in H.
    injection H as E1 E2 E3 E4 E5 E6 E7 E8 E9 E10 E11 E12 E13 E14.
    repeat split; congruence. }
  destruct Hparts as (E1 & E2 & E3 & E4 & E5 & E6 & E7).
  apply fmt2_inj in E1;
    [| split; [apply Z.div_pos; lia | apply Z.div_lt_upper_bound; lia]
     | split; [apply Z.div_pos; lia | apply Z.div_lt_upper_bound; lia] ].
  apply fmt2_inj in E2; [| apply Z.mod_pos_bound; lia | apply Z.mod_pos_bound; lia].
  apply fmt2_inj in E3; [|lia|lia]. apply fmt2_inj in E4; [|lia|lia].
  apply fmt2_inj in E5; [|lia|lia]. apply fmt2_inj in E6; [|lia|lia].
  apply fmt2_inj in E7; [|lia|lia].
  assert (y1 = y2).
  { rewrite (Z.div_mod y1 100), (Z.div_mod y2 100) by lia. now rewrite E1, E2. }
  now subst.
Qed.

(** X13. The file name tells the second of the save and nothing else:
    under valid clocks two saves into the same directory address the
    same file exactly when their clocks show the same second, so saves
    at different seconds never overwrite each other and saves within
    one second do. *)
Theorem one_file_per_second :
  forall (output_dir : string) (w1 w2 : World),
    Datetime.wf (now w1) -> Datetime.wf (now w2) ->
    (filename_at (now w1) = filename_at (now w2) <-> now w1 = now w2)
    /\ (target output_dir w1 = target output_dir w2 <-> now w1 = now w2).
Proof.
  intros output_dir w1 w2 H1 H2.
  assert (Hf : filename_at (now w1) = filename_at (now w2) <-> now w1 = now w2).
  { split; [now apply filename_inj | now intros ->]. }
  split; [exact Hf|]. split.
  - intros Ht. apply Hf. rewrite !target_run in Ht.
    destruct (filename_matches H1) as [_ E1]. destruct (filename_matches H2) as [_ E2].
    rewrite E1, E2 in Ht. cbn [Pathlib.parts] in Ht. injection Ht as Ht.
    apply app_inj_tail in Ht. apply Ht.
  - intros Hn. unfold target. now rewrite Hn.
Qed.

Lemma one_file_per_second_witness :
  Datetime.wf (now (Sample.world [])) /\ Datetime.wf (now Scenario.parts_none)
  /\ target "out" (Sample.world []) = target "out" Scenario.parts_none.
Proof.
  assert (H : Datetime.wf (mkDatetime 2024 3 9 7 5 59)).
  { unfold Datetime.wf. cbn. repeat split; discriminate. }
  split; [exact H|]. split; [exact H|].
  exact (proj2 (proj2 (@one_file_per_second "out" (Sample.world []) Scenario.parts_none H H))
           eq_refl).
Defined.

(** ** The whole way *)

(** X14. The way of a Gemini image through the script.  When the
    library imports, the prompt passes the checks, the response is
    iterated, its first text-free inline part gives an image whose
    [save] refuses the format argument with [TypeError] and accepts the
    path alone, then the script prints the texts ahead of that part,
    tries both forms of [save] on the file named after the clock in the
    working directory, reports the absolute path, confirms with the
    bare file name, and ends normally with exit status 0. *)
Theorem gemini_image_end_to_end :
  forall (argv : list string) (w : World) (k : string)
         (pre : list Part) (p : Part) (post : list Part) (image : Image) (e : exn),
    let prompt := Str.join " " (skipn 1 argv) in
    let filename := filename_at (now w) in
    let fp := mkPath EmptyString [filename] in
    import_genai w = Returns tt ->
    2 <= length argv -> whitespace_only prompt = false ->
    iterates w prompt k (pre ++ p :: post) ->
    Forall (fun q => image_only q = false) pre -> image_only p = true ->
    as_image p = Returns (Some image) ->
    has_save image = true ->
    save_with_format image fp "PNG" = Throws e -> is_TypeError e = true ->
    save_plain image filename = Returns tt ->
    Datetime.wf (now w) ->
    script argv w =
      (request_head k prompt ++ text_prints pre
         ++ [ Print "Image generated successfully!";
              SaveFormat fp "PNG";
              SavePlain filename;
              Print (nl +++ "Image saved to: "
                        +++ Pathlib.to_string
                              (mkPath (Pathlib.root (cwd w))
                                      (Pathlib.parts (cwd w) ++ [filename])));
              Print (nl +++ check_mark +++ " Image generation complete!");
              Print (check_mark +++ " Saved as: " +++ filename) ],
       Ret tt)
    /\ exit_status (outcome_of (script argv w)) = 0%Z
    /\ matches_pattern filename = true.
Proof.
  intros argv w k pre p post image e prompt filename fp
         Himp Hlen Hblank Hit Hpre Hp Ha Hs Hf Ht Hpl Hwf.
  destruct (filename_matches Hwf) as [Hm Hparse]. fold filename in Hm, Hparse.
  assert (Htarget : target "." w = fp).
  { rewrite target_run. fold filename. now rewrite Hparse. }
  assert (Hstr : Pathlib.to_string fp = filename).
  { unfold fp, Pathlib.to_string. cbn. reflexivity. }
  assert (Eg : generate_image prompt w =
               (request_head k prompt ++ text_prints pre
                  ++ [Print "Image generated successfully!"], Ret (Some image))).
  { rewrite (generate_image_iterated Hit).
    destruct (@first_image_split pre p post Hpre Hp) as [-> ->].
    cbv zeta. now rewrite Ha. }
  assert (Es : save_image image "." w =
               ([SaveFormat fp "PNG"; SavePlain filename; saved_line w fp], Ret (Some fp))).
  { pose proof (save_image_run image "." w) as E. cbv zeta in E.
    rewrite Htarget, Hs in E. fold fp in E. rewrite Hf, Ht, Hstr, Hpl in E. exact E. }
  assert (E : script argv w =
      (request_head k prompt ++ text_prints pre
         ++ [ Print "Image generated successfully!";
              SaveFormat fp "PNG";
              SavePlain filename;
              Print (nl +++ "Image saved to: "
                        +++ Pathlib.to_string
                              (mkPath (Pathlib.root (cwd w))
                                      (Pathlib.parts (cwd w) ++ [filename])));
              Print (nl +++ check_mark +++ " Image generation complete!");
              Print (check_mark +++ " Saved as: " +++ filename) ],
       Ret tt)).
  { rewrite script_after_import by exact Himp.
    rewrite (main_valid argv w Hlen Hblank). fold prompt. rewrite Eg, Es.
    rewrite <- !app_assoc. reflexivity. }
  split; [exact E|]. split; [now rewrite E|exact Hm].
Qed.

Lemma gemini_image_witness :
  let w := Sample.world [Sample.text_part "Here you go."; Sample.image_part Sample.gemini] in
  iterates w "A red apple" "secret"
           ([Sample.text_part "Here you go."] ++ Sample.image_part Sample.gemini :: [])
  /\ exit_status (outcome_of (script Sample.argv_apple w)) = 0%Z.
Proof.
  cbv zeta.
  assert (H : iterates
                (Sample.world [Sample.text_part "Here you go."; Sample.image_part Sample.gemini])
                "A red apple" "secret"
                ([Sample.text_part "Here you go."] ++ Sample.image_part Sample.gemini :: [])).
  { split; [reflexivity|]. split; [discriminate|]. split; [reflexivity|].
    eexists. split; reflexivity. }
  split; [exact H|].
  refine (proj1 (proj2 (@gemini_image_end_to_end Sample.argv_apple
            (Sample.world [Sample.text_part "Here you go."; Sample.image_part Sample.gemini])
            "secret"
            [Sample.text_part "Here you go."] (Sample.image_part Sample.gemini) []
            Sample.gemini
            (mkExn TypeError "Image.save() takes 2 positional arguments but 3 were given")
            eq_refl _ eq_refl H _ eq_refl eq_refl eq_refl
            eq_refl eq_refl eq_refl _))).
  - cbn. repeat constructor.
  - repeat constructor.
  - unfold Datetime.wf. cbn. repeat split; discriminate.
Defined.

(** ** Key words in error messages *)

Lemma lower_append (a b : string) :
  Str.lower (a +++ b) = Str.lower a +++ Str.lower b.
Proof. induction a as [|c a IH]; cbn; [reflexivity | now rewrite IH]. Qed.

Lemma prefix_append (n post : string) : prefix n (n +++ post) = true.
Proof.
  induction n as [|c n IH]; cbn; [destruct post; reflexivity|].
  destruct (ascii_dec c c); [exact IH|contradiction].
Qed.

Lemma contains_head (n hay : string) : prefix n hay = true -> Str.contains n hay = true.
Proof. intros H. destruct hay; cbn [Str.contains]; rewrite H; reflexivity. Qed.

Lemma contains_middle (n pre post : string) :
  Str.contains n (pre +++ n +++ post) = true.
Proof.
  induction pre as [|c pre IH]; cbn [String.append].
  - apply contains_head, prefix_append.
  - cbn [Str.contains]. rewrite IH. apply orb_true_r.
Qed.

Lemma contains_lowered (kw pre word post : string) :
  Str.lower word = kw ->
  Str.contains kw (Str.lower (pre +++ word +++ post)) = true.
Proof. intros <-. rewrite !lower_append. apply contains_middle. Qed.

(** X15. The key words of the error handler are found anywhere in the
    message and in any letter case.  A message with "api key" or
    "authentication" in it, however capitalised, gets the credential
    guidance whatever else it says; a message with any of the six key
    words in it gets exactly one guidance block. *)
Theorem key_words_anywhere_any_case :
  forall (e : exn) (w : World) (pre word post : string),
    exn_str e = pre +++ word +++ post ->
    (Str.lower word = "api key" \/ Str.lower word = "authentication" ->
     generation_failed e w = (error_line e :: guidance_block Credential, Ret None))
    /\ (In (Str.lower word)
           ["api key"; "authentication"; "quota"; "rate limit"; "network"; "connection"] ->
        exists g, generation_failed e w = (error_line e :: guidance_block g, Ret None)).
Proof.
  intros e w pre word post Hmsg. rewrite generation_failed_blocks, Hmsg.
  unfold guidance_for, credential_words, throttling_words, connectivity_words. split.
  - intros [H|H]; rewrite (@contains_lowered _ pre _ post H), ?orb_true_r; reflexivity.
  - intros H. cbn [In] in H.
    destruct H as [H|[H|[H|[H|[H|[H|[]]]]]]]; symmetry in H;
      pose proof (@contains_lowered _ pre _ post H) as Hc;
      destruct (Str.contains "api key" _ || Str.contains "authentication" _) eqn:C1;
      try (exists Credential; reflexivity);
      destruct (Str.contains "quota" _ || Str.contains "rate limit" _) eqn:C2;
      try (exists Throttling; reflexivity);
      destruct (Str.contains "network" _ || Str.contains "connection" _) eqn:C3;
      try (exists Connectivity; reflexivity);
      exfalso; rewrite Hc, ?orb_true_r in *; discriminate.
Qed.

Lemma key_words_witness :
  "Invalid API Key format" = "Invalid " +++ "API Key" +++ " format"
  /\ generation_failed (mkExn OtherException "Invalid API Key format") (Sample.world [])
     = (error_line (mkExn OtherException "Invalid API Key format")
          :: guidance_block Credential, Ret None).
Proof.
  split; [reflexivity|].
  exact (proj1 (@key_words_anywhere_any_case
                  (mkExn OtherException "Invalid API Key format") (Sample.world [])
                  "Invalid " "API Key" " format" eq_refl) (or_introl eq_refl)).
Defined.
